(** * GoProxLB: balancing decision engine and rule engine

    A shallow embedding of the rule engine ([internal/rules/engine.go]),
    the advanced balancer ([internal/balancer/advanced_balancer.go]), the
    threshold balancer (the [Balancer] of package [balancer]) and the
    aggressiveness presets ([internal/config/config.go]).

    Modelling conventions.
    - Go [float32]/[float64] values are modelled as exact rationals [Q];
      the Go conversion [int(x)] (truncation toward zero) is [go_int].
    - Times are [Z] seconds; the zero [time.Time] is [None].  One cycle
      reads the clock once ([now]); every [time.Now()] of the cycle is that
      instant.
    - Go maps are association lists kept in insertion order; where the Go
      code iterates over a map (whose order is unspecified), the theorems
      quantify over every iteration order.
    - The platform client is an environment record: the answer of
      [GetNodes], of [GetNodeHistoricalData] and of [MigrateVM]. *)

From Stdlib Require Import ZArith QArith Qround Qminmax List String Ascii Bool Lia.
From Stdlib Require Import Sorting.Permutation Sorting.Sorted Lqa.
Import ListNotations.
Open Scope string_scope.

(** ** Data model ([internal/models]) *)

Record VM := mkVM {
  vm_ID : Z;
  vm_Name : string;
  vm_Node : string;
  vm_Type : string;
  vm_Status : string;
  vm_CPU : Q;
  vm_Memory : Z;
  vm_Tags : list string;
  vm_LastMoved : option Z   (* [None] is the zero time *)
}.

Record Node := mkNode {
  node_Name : string;
  node_Status : string;
  node_CPU : Q;      (* CPU.Usage, percent *)
  node_Memory : Q;   (* Memory.Usage, percent *)
  node_Storage : Q;  (* Storage.Usage, percent *)
  node_VMs : list VM
}.

(** Go [int(x)] for a floating value: truncation toward zero. *)
Definition go_int (q : Q) : Z :=
  if Qle_bool 0 q then Qfloor q else - Qfloor (- q).

(** Association-list maps. *)
Fixpoint alookup {V} (k : string) (m : list (string * V)) : option V :=
  match m with
  | [] => None
  | (k', v) :: m' => if String.eqb k k' then Some v else alookup k m'
  end.

Fixpoint zlookup {V} (k : Z) (m : list (Z * V)) : option V :=
  match m with
  | [] => None
  | (k', v) :: m' => if Z.eqb k k' then Some v else zlookup k m'
  end.

(** [m[k] = f(m[k])], creating [m[k] = d] first when absent (new keys go last). *)
Fixpoint aupdate {V} (k : string) (d : V) (f : V -> V) (m : list (string * V))
  : list (string * V) :=
  match m with
  | [] => [(k, f d)]
  | (k', v) :: m' => if String.eqb k k' then (k', f v) :: m'
                    else (k', v) :: aupdate k d f m'
  end.

Fixpoint zupdate {V} (k : Z) (d : V) (f : V -> V) (m : list (Z * V))
  : list (Z * V) :=
  match m with
  | [] => [(k, f d)]
  | (k', v) :: m' => if Z.eqb k k' then (k', f v) :: m'
                    else (k', v) :: zupdate k d f m'
  end.

(** ** Strings ([strings.TrimSpace], [HasPrefix], [TrimPrefix]) *)

Definition is_space (c : ascii) : bool :=
  match nat_of_ascii c with
  | 32%nat | 9%nat | 10%nat | 11%nat | 12%nat | 13%nat => true
  | _ => false
  end.

Fixpoint trim_left (s : string) : string :=
  match s with
  | EmptyString => EmptyString
  | String c s' => if is_space c then trim_left s' else s
  end.

Definition rev_string (s : string) : string :=
  string_of_list_ascii (rev (list_ascii_of_string s)).

Definition TrimSpace (s : string) : string :=
  rev_string (trim_left (rev_string (trim_left s))).

Definition HasPrefix (s p : string) : bool := String.prefix p s.

Definition TrimPrefix (s p : string) : string :=
  if HasPrefix s p then substring (String.length p) (String.length s - String.length p) s
  else s.

(** ** Rule engine ([internal/rules/engine.go]) *)

Module Rules.

Record Group := mkGroup { g_Tag : string; g_VMs : list VM; g_Nodes : list string }.
Record PinnedVM := mkPinned { p_VM : VM; p_Nodes : list string }.
Record IgnoredVM := mkIgnored { i_VM : VM; i_Tags : list string }.

Record Engine := mkEngine {
  affinityGroups : list (string * Group);
  antiAffinityGroups : list (string * Group);
  pinnedVMs : list (Z * PinnedVM);
  ignoredVMs : list (Z * IgnoredVM)
}.

Definition NewEngine : Engine := mkEngine [] [] [] [].

Definition addNodeToGroup (nodeName : string) (nodes : list string) : list string :=
  if existsb (String.eqb nodeName) nodes then nodes else nodes ++ [nodeName].

Definition add_to_group (vm : VM) (g : Group) : Group :=
  mkGroup (g_Tag g) (g_VMs g ++ [vm]) (addNodeToGroup (vm_Node vm) (g_Nodes g)).

Definition addVMToGroup (e : Engine) (vm : VM) (groupName : string) (isAffinity : bool)
  : Engine :=
  let fresh := mkGroup groupName [] [] in
  if isAffinity then
    mkEngine (aupdate groupName fresh (add_to_group vm) (affinityGroups e))
             (antiAffinityGroups e) (pinnedVMs e) (ignoredVMs e)
  else
    mkEngine (affinityGroups e)
             (aupdate groupName fresh (add_to_group vm) (antiAffinityGroups e))
             (pinnedVMs e) (ignoredVMs e).

Definition addAffinityRule (e : Engine) (vm : VM) (tag : string) : Engine :=
  addVMToGroup e vm (TrimPrefix tag "plb_affinity_") true.

Definition addAntiAffinityRule (e : Engine) (vm : VM) (tag : string) : Engine :=
  addVMToGroup e vm (TrimPrefix tag "plb_anti_affinity_") false.

Definition addPinningRule (e : Engine) (vm : VM) (tag : string) : Engine :=
  let nodeName := TrimPrefix tag "plb_pin_" in
  mkEngine (affinityGroups e) (antiAffinityGroups e)
    (zupdate (vm_ID vm) (mkPinned vm [])
       (fun p => if existsb (String.eqb nodeName) (p_Nodes p) then p
                 else mkPinned (p_VM p) (p_Nodes p ++ [nodeName]))
       (pinnedVMs e))
    (ignoredVMs e).

Definition addIgnoreRule (e : Engine) (vm : VM) (tag : string) : Engine :=
  let ignoreTag := TrimPrefix tag "plb_ignore_" in
  mkEngine (affinityGroups e) (antiAffinityGroups e) (pinnedVMs e)
    (zupdate (vm_ID vm) (mkIgnored vm [])
       (fun i => mkIgnored (i_VM i) (i_Tags i ++ [ignoreTag])) (ignoredVMs e)).

Definition processTag (vm : VM) (e : Engine) (tag0 : string) : Engine :=
  let tag := TrimSpace tag0 in
  if HasPrefix tag "plb_affinity_" then addAffinityRule e vm tag
  else if HasPrefix tag "plb_anti_affinity_" then addAntiAffinityRule e vm tag
  else if HasPrefix tag "plb_pin_" then addPinningRule e vm tag
  else if HasPrefix tag "plb_ignore_" then addIgnoreRule e vm tag
  else e.

Definition processVM (e : Engine) (vm : VM) : Engine :=
  fold_left (processTag vm) (vm_Tags vm) e.

(** [ProcessVMs] resets the four maps and folds [processVM]; it never fails. *)
Definition ProcessVMs (e : Engine) (vms : list VM) : Engine :=
  fold_left processVM vms NewEngine.

Definition IsIgnored (e : Engine) (vmID : Z) : bool :=
  match zlookup vmID (ignoredVMs e) with Some _ => true | None => false end.

Definition IsPinned (e : Engine) (vmID : Z) : bool :=
  match zlookup vmID (pinnedVMs e) with Some _ => true | None => false end.

Definition GetPinnedNodes (e : Engine) (vmID : Z) : list string :=
  match zlookup vmID (pinnedVMs e) with Some p => p_Nodes p | None => [] end.

(** The Go [error] values of the engine; [None] is [nil]. *)
Inductive RuleError :=
| ErrIgnored (vmName : string)
| ErrPinned (vmName : string) (nodes : list string) (target : string)
| ErrAffinity (vmName : string) (group : string) (target : string)
| ErrAntiAffinity (vmName : string) (group : string) (target : string).

Definition validateIgnoreRules (e : Engine) (vm : VM) : option RuleError :=
  if IsIgnored e (vm_ID vm) then Some (ErrIgnored (vm_Name vm)) else None.

Definition validatePinningRules (e : Engine) (vm : VM) (targetNode : string)
  : option RuleError :=
  if negb (IsPinned e (vm_ID vm)) then None
  else let pinnedNodes := GetPinnedNodes e (vm_ID vm) in
       if existsb (String.eqb targetNode) pinnedNodes then None
       else Some (ErrPinned (vm_Name vm) pinnedNodes targetNode).

Definition findVMInGroup (vmID : Z) (g : Group) : option VM :=
  find (fun v => Z.eqb (vm_ID v) vmID) (g_VMs g).

Definition checkAffinityConstraints (vm : VM) (targetNode : string) (g : Group)
  : option RuleError :=
  let hasAffinityVM :=
    existsb (fun o => negb (Z.eqb (vm_ID o) (vm_ID vm)) && String.eqb (vm_Node o) targetNode)
            (g_VMs g) in
  if hasAffinityVM then None
  else if existsb (fun o => negb (Z.eqb (vm_ID o) (vm_ID vm))
                            && negb (String.eqb (vm_Node o) targetNode)) (g_VMs g)
  then Some (ErrAffinity (vm_Name vm) (g_Tag g) targetNode)
  else None.

Definition checkAntiAffinityConstraints (vm : VM) (targetNode : string) (g : Group)
  : option RuleError :=
  if existsb (fun o => negb (Z.eqb (vm_ID o) (vm_ID vm)) && String.eqb (vm_Node o) targetNode)
       (g_VMs g)
  then Some (ErrAntiAffinity (vm_Name vm) (g_Tag g) targetNode)
  else None.

(** [for _, group := range groups { if found { return check(...) } }; return nil]:
    the first group in iteration order that contains the VM decides. *)
Fixpoint firstGroupCheck (check : VM -> string -> Group -> option RuleError)
  (vm : VM) (targetNode : string) (groups : list (string * Group)) : option RuleError :=
  match groups with
  | [] => None
  | (_, g) :: gs =>
      match findVMInGroup (vm_ID vm) g with
      | Some _ => check vm targetNode g
      | None => firstGroupCheck check vm targetNode gs
      end
  end.

Definition validateAffinityRules (e : Engine) (vm : VM) (targetNode : string) :=
  firstGroupCheck checkAffinityConstraints vm targetNode (affinityGroups e).

Definition validateAntiAffinityRules (e : Engine) (vm : VM) (targetNode : string) :=
  firstGroupCheck checkAntiAffinityConstraints vm targetNode (antiAffinityGroups e).

Definition ValidatePlacement (e : Engine) (vm : VM) (targetNode : string)
  : option RuleError :=
  match validateIgnoreRules e vm with
  | Some err => Some err
  | None =>
    match validatePinningRules e vm targetNode with
    | Some err => Some err
    | None =>
      match validateAffinityRules e vm targetNode with
      | Some err => Some err
      | None => validateAntiAffinityRules e vm targetNode
      end
    end
  end.

Definition GetValidTargetNodes (e : Engine) (vm : VM) (availableNodes : list string)
  : list string :=
  filter (fun n => match ValidatePlacement e vm n with None => true | Some _ => false end)
    availableNodes.

(** Go's map iteration order is unspecified: [e'] is [e] iterated in some order. *)
Definition same_maps (e e' : Engine) : Prop :=
  Permutation (affinityGroups e) (affinityGroups e') /\
  Permutation (antiAffinityGroups e) (antiAffinityGroups e') /\
  pinnedVMs e' = pinnedVMs e /\ ignoredVMs e' = ignoredVMs e.

End Rules.

Import Rules.

(** ** Configuration ([internal/config/config.go]) *)

Record Config := mkConfig {
  cfg_Aggressiveness : string;
  cfg_ThresholdCPU : Z;
  cfg_ThresholdMemory : Z;
  cfg_ThresholdStorage : Z;
  cfg_WeightCPU : Q;
  cfg_WeightMemory : Q;
  cfg_WeightStorage : Q;
  cfg_MaintenanceNodes : list string;
  cfg_LoadProfilesEnabled : bool;
  cfg_CapacityEnabled : bool;
  cfg_CapacityForecast : option Z   (* [GetCapacityForecast]: seconds, [None] on a parse error *)
}.

Record AggressivenessConfig := mkAggr {
  CooldownPeriod : Z;   (* seconds *)
  MinImprovement : Q;
  StabilityWeight : Q;
  CapacityWeight : Q
}.

Definition GetAggressivenessConfig (c : Config) : AggressivenessConfig :=
  if String.eqb (cfg_Aggressiveness c) "low" then mkAggr (4 * 3600) 15 (8 # 10) (2 # 10)
  else if String.eqb (cfg_Aggressiveness c) "high" then mkAggr (30 * 60) 5 (4 # 10) (8 # 10)
  else mkAggr (2 * 3600) 10 (6 # 10) (5 # 10).

(** The defaults of [setDefaults]. *)
Definition defaultConfig : Config :=
  mkConfig "low" 80 85 90 1 1 (1 # 2) [] true true (Some (168 * 3600)%Z).

(** ** Sorting ([sort.Slice] with a strict [less]) *)

(** Insertion of [x] after every element it is not strictly less than: the
    insertion sort [sort.Slice] runs on short slices. *)
Fixpoint insert_by {A} (less : A -> A -> bool) (x : A) (l : list A) : list A :=
  match l with
  | [] => [x]
  | y :: l' => if less x y then x :: y :: l' else y :: insert_by less x l'
  end.

Definition sort_by {A} (less : A -> A -> bool) (l : list A) : list A :=
  fold_left (fun acc x => insert_by less x acc) l [].

Definition Qltb (x y : Q) : bool := negb (Qle_bool y x).

(** ** Percentiles ([calculatePercentiles]) *)

Record CapacityMetrics := mkMetrics {
  P50 : Q; P90 : Q; P95 : Q; P99 : Q; MinP90 : Q; MaxP90 : Q; Mean : Q;
  StdDevSq : Q   (* the square of [StdDev]: the code takes [math.Sqrt] of it *)
}.

Definition zeroMetrics : CapacityMetrics := mkMetrics 0 0 0 0 0 0 0 0.

(** [idx := int(nMinus1*p + 0.5); if idx >= n { idx = n - 1 }] *)
Definition percentile_index (n : nat) (p : Q) : nat :=
  let i := Z.to_nat (go_int (inject_Z (Z.of_nat n - 1) * p + (1 # 2))) in
  if (n <=? i)%nat then (n - 1)%nat else i.

Definition sumQ (l : list Q) : Q := fold_left Qplus l 0.

Definition calculatePercentiles (values0 : list Q) : CapacityMetrics :=
  match values0 with
  | [] => zeroMetrics
  | _ =>
    let values := sort_by Qltb values0 in
    let n := List.length values in
    let p50Idx := percentile_index n (1 # 2) in
    let p90Idx := percentile_index n (9 # 10) in
    let p95Idx := percentile_index n (95 # 100) in
    let p99Idx := percentile_index n (99 # 100) in
    let minIdx := percentile_index n (1 # 10) in
    let pick i := nth i values 0 in
    (* Go sums, divides and takes the variance in float32; [Mean] and
       [StdDevSq] here are the exact values, and no property below is about
       them. *)
    let mean := sumQ values / inject_Z (Z.of_nat n) in
    let variance := sumQ (map (fun v => (v - mean) * (v - mean)) values) in
    mkMetrics (pick p50Idx) (pick p90Idx) (pick p95Idx) (pick p99Idx) (pick minIdx) (pick p90Idx)
      mean (variance / inject_Z (Z.of_nat n))
  end.

(** ** Load profiles ([updateLoadProfiles]) *)

Inductive Priority := PriorityRealtime | PriorityInteractive | PriorityBackground.
Inductive Criticality := CriticalityCritical | CriticalityImportant | CriticalityNormal.

Record LoadProfile := mkProfile {
  lp_CPUType : string; lp_CPUSustainedLevel : Q;
  lp_MemoryType : string; lp_MemoryPeakUsage : Q;
  lp_StorageType : string; lp_ReadIOPs : Z; lp_WriteIOPs : Z;
  lp_Priority : Priority; lp_Criticality : Criticality
}.

Fixpoint priority_from_tags (tags : list string) : option Priority :=
  match tags with
  | [] => None
  | t :: ts =>
    if existsb (String.eqb t) ["realtime"; "critical"; "high-priority"] then Some PriorityRealtime
    else if existsb (String.eqb t) ["interactive"; "user-facing"] then Some PriorityInteractive
    else if existsb (String.eqb t) ["background"; "batch"; "low-priority"] then Some PriorityBackground
    else priority_from_tags ts
  end.

Definition determinePriority (vm : VM) (cpuType : string) (sustained : Q) : Priority :=
  match priority_from_tags (vm_Tags vm) with
  | Some p => p
  | None =>
    if String.eqb cpuType "sustained" && Qltb 70 sustained then PriorityRealtime
    else if String.eqb cpuType "burst" then PriorityInteractive
    else PriorityBackground
  end.

Fixpoint criticality_from_tags (tags : list string) : option Criticality :=
  match tags with
  | [] => None
  | t :: ts =>
    if existsb (String.eqb t) ["critical"; "essential"] then Some CriticalityCritical
    else if existsb (String.eqb t) ["important"; "production"] then Some CriticalityImportant
    else criticality_from_tags ts
  end.

Definition determineCriticality (vm : VM) (p : Priority) : Criticality :=
  match criticality_from_tags (vm_Tags vm) with
  | Some c => c
  | None => match p with
            | PriorityRealtime => CriticalityCritical
            | PriorityInteractive => CriticalityImportant
            | PriorityBackground => CriticalityNormal
            end
  end.

(** The three pattern analyses return fixed placeholders in the source. *)
Definition analyzeLoadProfile (vm : VM) : LoadProfile :=
  let pr := determinePriority vm "sustained" 90 in
  mkProfile "sustained" 90 "sustained" 90 "sustained" 1500 700 pr (determineCriticality vm pr).

(** ** Advanced balancer ([internal/balancer/advanced_balancer.go]) *)

Record MigrationHistory := mkHistory {
  h_VMID : Z; h_FromNode : string; h_ToNode : string; h_Timestamp : Z; h_Reason : string
}.

(** ** Doubles of the scoring code ([float64])

    Finite values are exact rationals, as elsewhere; the two infinities and
    NaN are kept, because a division by a zero total weight yields them.
    Signed zeros are not told apart: the only zero divisors the scoring
    code meets are sums of non-negative terms or of terms cancelling out,
    which are +0, or sums of -0 terms, whose dividend is a zero too (NaN
    either way). *)
Inductive float := FNum (q : Q) | FPosInf | FNegInf | FNaN.

(** [pos], [neg] or [zero] after the sign of [q]. *)
Definition fsign (q : Q) (pos neg zero : float) : float :=
  match Qcompare q 0 with Gt => pos | Lt => neg | Eq => zero end.

Definition fneg (x : float) : float :=
  match x with
  | FNum a => FNum (- a) | FPosInf => FNegInf | FNegInf => FPosInf | FNaN => FNaN
  end.

Definition fadd (x y : float) : float :=
  match x, y with
  | FNaN, _ | _, FNaN => FNaN
  | FPosInf, FNegInf | FNegInf, FPosInf => FNaN
  | FPosInf, _ | _, FPosInf => FPosInf
  | FNegInf, _ | _, FNegInf => FNegInf
  | FNum a, FNum b => FNum (a + b)
  end.

Definition fsub (x y : float) : float := fadd x (fneg y).

Definition fmul (x y : float) : float :=
  match x, y with
  | FNaN, _ | _, FNaN => FNaN
  | FNum a, FNum b => FNum (a * b)
  | FNum a, FPosInf | FPosInf, FNum a => fsign a FPosInf FNegInf FNaN
  | FNum a, FNegInf | FNegInf, FNum a => fsign a FNegInf FPosInf FNaN
  | FPosInf, FPosInf | FNegInf, FNegInf => FPosInf
  | FPosInf, FNegInf | FNegInf, FPosInf => FNegInf
  end.

(** [x / 0] is NaN for [x = 0] and an infinity of the sign of [x] otherwise. *)
Definition fdiv (x y : float) : float :=
  match x, y with
  | FNaN, _ | _, FNaN => FNaN
  | FNum a, FNum b => if Qeq_bool b 0 then fsign a FPosInf FNegInf FNaN else FNum (a / b)
  | FNum _, _ => FNum 0
  | FPosInf, FNum b => fsign b FPosInf FNegInf FPosInf
  | FNegInf, FNum b => fsign b FNegInf FPosInf FNegInf
  | _, _ => FNaN
  end.

(** [x < y] and [x <= y]: false as soon as one side is NaN. *)
Definition flt (x y : float) : bool :=
  match x, y with
  | FNum a, FNum b => Qltb a b
  | FNegInf, (FNum _ | FPosInf) | FNum _, FPosInf => true
  | _, _ => false
  end.

Definition fle (x y : float) : bool :=
  match x, y with
  | FNum a, FNum b => Qle_bool a b
  | FNegInf, (FNum _ | FPosInf | FNegInf) | (FNum _ | FPosInf), FPosInf => true
  | _, _ => false
  end.

(** [math.Max]: +Inf if either side is +Inf, else NaN if either side is NaN. *)
Definition fmax (x y : float) : float :=
  match x, y with
  | FPosInf, _ | _, FPosInf => FPosInf
  | FNaN, _ | _, FNaN => FNaN
  | FNegInf, _ => y
  | _, FNegInf => x
  | FNum a, FNum b => FNum (Qmax a b)
  end.

Record NodeScore := mkScore {
  ns_Node : string; ns_Score : float; ns_CPU : Q; ns_Memory : Q; ns_Storage : Q
}.

Record Migration := mkMigration {
  m_VM : VM; m_FromNode : string; m_ToNode : string; m_Status : string; m_StartTime : Z
}.

Record BalancingResult := mkResult {
  r_SourceNode : string; r_TargetNode : string; r_VM : VM; r_Reason : string;
  r_ResourceGain : float; r_Timestamp : Z; r_Success : bool; r_ErrorMessage : string
}.

(** One historical sample of [GetNodeHistoricalData] (the fields the code reads). *)
Record Sample := mkSample { s_CPU : Q; s_Memory : Q }.

(** The platform client as seen by one cycle. *)
Record Client := mkClient {
  GetNodes : option (list Node);                          (* [None]: error *)
  GetNodeHistoricalData : string -> string -> option (list Sample);
  MigrateVM : Z -> string -> string -> option string      (* [Some msg]: error *)
}.

Record AdvancedBalancer := mkAdvanced {
  ab_config : Config;
  ab_engine : Engine;
  ab_lastRun : option Z;
  ab_migrationHistory : list MigrationHistory;
  ab_loadProfiles : list (Z * LoadProfile);
  ab_capacityMetrics : list (string * CapacityMetrics)
}.

Definition NewAdvancedBalancer (cfg : Config) : AdvancedBalancer :=
  mkAdvanced cfg NewEngine None [] [] [].

Definition set_loadProfiles (b : AdvancedBalancer) lp :=
  mkAdvanced (ab_config b) (ab_engine b) (ab_lastRun b) (ab_migrationHistory b) lp
    (ab_capacityMetrics b).
Definition set_capacityMetrics (b : AdvancedBalancer) cm :=
  mkAdvanced (ab_config b) (ab_engine b) (ab_lastRun b) (ab_migrationHistory b)
    (ab_loadProfiles b) cm.
Definition set_history (b : AdvancedBalancer) h :=
  mkAdvanced (ab_config b) (ab_engine b) (ab_lastRun b) h (ab_loadProfiles b)
    (ab_capacityMetrics b).
Definition set_lastRun (b : AdvancedBalancer) t :=
  mkAdvanced (ab_config b) (ab_engine b) t (ab_migrationHistory b) (ab_loadProfiles b)
    (ab_capacityMetrics b).

Definition isInMaintenance (c : Config) (nodeName : string) : bool :=
  existsb (String.eqb nodeName) (cfg_MaintenanceNodes c).

Definition filterAvailableNodes (b : AdvancedBalancer) (nodes : list Node) : list Node :=
  filter (fun n => String.eqb (node_Status n) "online"
                   && negb (isInMaintenance (ab_config b) (node_Name n))) nodes.

Definition exceeds (c : Config) (n : Node) : bool :=
  Qltb (inject_Z (cfg_ThresholdCPU c)) (node_CPU n)
  || Qltb (inject_Z (cfg_ThresholdMemory c)) (node_Memory n)
  || Qltb (inject_Z (cfg_ThresholdStorage c)) (node_Storage n).

Definition needsBalancing (b : AdvancedBalancer) (nodes : list Node) : bool :=
  existsb (exceeds (ab_config b)) nodes.

Definition updateLoadProfiles (b : AdvancedBalancer) (nodes : list Node) : AdvancedBalancer :=
  set_loadProfiles b
    (fold_left (fun m vm => if String.eqb (vm_Status vm) "running"
                            then zupdate (vm_ID vm) (analyzeLoadProfile vm)
                                   (fun _ => analyzeLoadProfile vm) m
                            else m)
       (flat_map node_VMs nodes) (ab_loadProfiles b)).

Definition capacity_timeframe (c : Config) : string :=
  match cfg_CapacityForecast c with
  | None => "day"
  | Some f => if (7 * 24 * 3600 <=? f)%Z then "week"
              else if (24 * 3600 <=? f)%Z then "day" else "hour"
  end.

(** The stored metrics are the CPU percentiles (history or current usage). *)
Definition metrics_for (b : AdvancedBalancer) (cl : Client) (n : Node) : CapacityMetrics :=
  match GetNodeHistoricalData cl (node_Name n) (capacity_timeframe (ab_config b)) with
  | None => calculatePercentiles [node_CPU n]
  | Some hist => calculatePercentiles (map s_CPU hist)
  end.

Definition updateCapacityMetrics (b : AdvancedBalancer) (cl : Client) (nodes : list Node)
  : AdvancedBalancer :=
  set_capacityMetrics b
    (fold_left (fun m n => aupdate (node_Name n) zeroMetrics (fun _ => metrics_for b cl n) m)
       nodes (ab_capacityMetrics b)).

(** *** Node scores *)

Definition calculateResourceScore (b : AdvancedBalancer) (n : Node) : float :=
  let c := ab_config b in
  let '(cpuInt, memoryInt) :=
    match alookup (node_Name n) (ab_capacityMetrics b) with
    | Some m =>
      if Qltb 0 (P90 m) then
        let predictive := P90 m * 100 in
        (go_int ((node_CPU n * (7 # 10) + predictive * (3 # 10)) * 100),
         go_int ((node_Memory n * (7 # 10) + predictive * (3 # 10)) * 100))
      else (go_int (node_CPU n * 100), go_int (node_Memory n * 100))
    | None => (go_int (node_CPU n * 100), go_int (node_Memory n * 100))
    end in
  let storageInt := go_int (node_Storage n * 100) in
  let cpuWeight := go_int (cfg_WeightCPU c * 1000) in
  let memoryWeight := go_int (cfg_WeightMemory c * 1000) in
  let storageWeight := go_int (cfg_WeightStorage c * 1000) in
  let weightedSum := (cpuInt * cpuWeight + memoryInt * memoryWeight
                      + storageInt * storageWeight)%Z in
  let totalWeight := (cpuWeight + memoryWeight + storageWeight)%Z in
  fdiv (fdiv (FNum (inject_Z weightedSum)) (FNum (inject_Z totalWeight))) (FNum 100).

Definition calculateStabilityScore (b : AdvancedBalancer) (now : Z) (n : Node) : Q :=
  let oneHourAgo := (now - 3600)%Z in
  let recentMigrations :=
    List.length (filter (fun h => (String.eqb (h_FromNode h) (node_Name n)
                                   || String.eqb (h_ToNode h) (node_Name n))
                                  && (oneHourAgo <? h_Timestamp h)%Z)
                        (ab_migrationHistory b)) in
  let ages := flat_map (fun vm => match vm_LastMoved vm with
                                  | Some t => [inject_Z (now - t) / 3600]
                                  | None => [] end) (node_VMs n) in
  let averageAge := match ages with
                    | [] => 0
                    | _ => sumQ ages / inject_Z (Z.of_nat (List.length ages)) end in
  let migrationPenalty := inject_Z (Z.of_nat recentMigrations) * 10 in
  let ageBonus := if Qltb 24 averageAge then 20 else averageAge / 24 * 20 in
  migrationPenalty - ageBonus.

Definition calculateMigrationCost (n : Node) : Q :=
  let cpuInt := go_int (node_CPU n) in
  let memoryInt := go_int (node_Memory n) in
  let baseCost := inject_Z (cpuInt + memoryInt) / 200 in
  if ((80 <? cpuInt) || (80 <? memoryInt))%Z then baseCost + 10 else baseCost.

Definition calculateCapacityScoreSimplified (b : AdvancedBalancer) (n : Node) : Q :=
  let cpuScore := if Qltb 0 (node_CPU n) then 100 - node_CPU n else 0 in
  let memoryScore := if Qltb 0 (node_Memory n) then 100 - node_Memory n else 0 in
  (cpuScore * (6 # 10) + memoryScore * (4 # 10))
    * CapacityWeight (GetAggressivenessConfig (ab_config b)).

Definition calculateCapacityScore (b : AdvancedBalancer) (n : Node) : Q :=
  match alookup (node_Name n) (ab_capacityMetrics b) with
  | None => calculateCapacityScoreSimplified b n
  | Some m =>
    let cpuScore := if Qltb 0 (P90 m) then 100 - P90 m else 0 in
    let memoryScore := if Qltb 0 (P90 m) then 100 - P90 m else 0 in
    (cpuScore * (6 # 10) + memoryScore * (4 # 10))
      * CapacityWeight (GetAggressivenessConfig (ab_config b))
  end.

Definition advancedScore (b : AdvancedBalancer) (now : Z) (n : Node) : NodeScore :=
  let finalScore := fadd (fadd (fadd (fmul (calculateResourceScore b n) (FNum (4 # 10)))
                                      (fmul (FNum (calculateStabilityScore b now n)) (FNum (2 # 10))))
                                (fmul (FNum (calculateCapacityScore b n)) (FNum (3 # 10))))
                          (fmul (FNum (calculateMigrationCost n)) (FNum (1 # 10))) in
  mkScore (node_Name n) finalScore (node_CPU n) (node_Memory n) (node_Storage n).

Definition calculateAdvancedNodeScores (b : AdvancedBalancer) (now : Z) (nodes : list Node)
  : list NodeScore :=
  sort_by (fun x y => flt (ns_Score x) (ns_Score y)) (map (advancedScore b now) nodes).

(** *** Migration plan *)

Definition canMigrateVM (b : AdvancedBalancer) (now : Z) (vm : VM) (sourceNode : string)
  : bool :=
  let oneHourAgo := (now - 3600)%Z in
  match vm_LastMoved vm with
  | Some t => if (oneHourAgo <? t)%Z then false else true
  | None => true
  end
  && negb (existsb (fun h => Z.eqb (h_VMID h) (vm_ID vm) && (oneHourAgo <? h_Timestamp h)%Z)
             (ab_migrationHistory b))
  && match ValidatePlacement (ab_engine b) vm sourceNode with None => true | Some _ => false end.

Definition findBestTargetNode (b : AdvancedBalancer) (vm : VM) (nodeScores : list NodeScore)
  (sourceNode : string) : string :=
  let availableNodes := map ns_Node (filter (fun s => negb (String.eqb (ns_Node s) sourceNode))
                                           nodeScores) in
  let validNodes := GetValidTargetNodes (ab_engine b) vm availableNodes in
  match find (fun s => negb (String.eqb (ns_Node s) sourceNode)
                       && existsb (String.eqb (ns_Node s)) validNodes) nodeScores with
  | Some s => ns_Node s
  | None => ""
  end.

(** [nodeScoreMap[score.Node] = score.Score] for every score: the last one wins. *)
Definition nodeScoreMap (nodeScores : list NodeScore) : list (string * float) :=
  fold_left (fun m s => aupdate (ns_Node s) (FNum 0) (fun _ => ns_Score s) m) nodeScores [].

Definition calculateResourceGain (sourceNode targetNode : string) (nodeScores : list NodeScore)
  : float :=
  match alookup sourceNode (nodeScoreMap nodeScores),
        alookup targetNode (nodeScoreMap nodeScores) with
  | Some s, Some t => fsub s t
  | _, _ => FNum 0
  end.

Definition isOverloaded (c : Config) (n : Node) : bool :=
  ((cfg_ThresholdCPU c <? go_int (node_CPU n))
   || (cfg_ThresholdMemory c <? go_int (node_Memory n))
   || (cfg_ThresholdStorage c <? go_int (node_Storage n)))%Z.

Section Planner.
Variables (b : AdvancedBalancer) (now : Z) (nodeScores : list NodeScore)
          (aggConfig : AggressivenessConfig).

(** The inner loop over the VMs of one overloaded node; the flag says that
    the plan reached 5 migrations and the function returned. *)
Fixpoint scan_vms (src : string) (vms : list VM) (acc : list Migration)
  : list Migration * bool :=
  match vms with
  | [] => (acc, false)
  | vm :: rest =>
    if negb (String.eqb (vm_Status vm) "running") then scan_vms src rest acc
    else if negb (canMigrateVM b now vm src) then scan_vms src rest acc
    else
      let targetNode := findBestTargetNode b vm nodeScores src in
      if String.eqb targetNode "" then scan_vms src rest acc
      else
        let gain := calculateResourceGain src targetNode nodeScores in
        if flt gain (FNum (MinImprovement aggConfig)) then scan_vms src rest acc
        else
          let acc' := (acc ++ [mkMigration vm src targetNode "pending" now])%list in
          if (5 <=? List.length acc')%nat then (acc', true)
          else scan_vms src rest acc'
  end.

Fixpoint scan_nodes (overloaded : list Node) (acc : list Migration) : list Migration :=
  match overloaded with
  | [] => acc
  | n :: ns =>
    let '(acc', stop) := scan_vms (node_Name n) (node_VMs n) acc in
    if stop then acc' else scan_nodes ns acc'
  end.

End Planner.

Definition findOptimalMigrations (b : AdvancedBalancer) (now : Z) (nodes : list Node)
  (nodeScores : list NodeScore) (aggConfig : AggressivenessConfig) : list Migration :=
  scan_nodes b now nodeScores aggConfig (filter (isOverloaded (ab_config b)) nodes) [].

(** *** Execution and history *)

Definition executeMigration (cl : Client) (now : Z) (m : Migration) : BalancingResult :=
  let err := MigrateVM cl (vm_ID (m_VM m)) (m_FromNode m) (m_ToNode m) in
  mkResult (m_FromNode m) (m_ToNode m) (m_VM m) "load_balancing" (FNum 10) now
    (match err with None => true | Some _ => false end)
    (match err with None => "" | Some msg => msg end).

Definition executeMigrations (cl : Client) (now : Z) (ms : list Migration)
  : list BalancingResult :=
  map (executeMigration cl now) ms.

Definition updateMigrationHistory (b : AdvancedBalancer) (now : Z)
  (results : list BalancingResult) : AdvancedBalancer :=
  let added := map (fun r => mkHistory (vm_ID (r_VM r)) (r_SourceNode r) (r_TargetNode r)
                                       (r_Timestamp r) (r_Reason r))
                   (filter r_Success results) in
  let oneDayAgo := (now - 24 * 3600)%Z in
  set_history b (filter (fun h => (oneDayAgo <? h_Timestamp h)%Z)
                        (ab_migrationHistory b ++ added)%list).

(** The observable outcome of one [Run]: Go's two return values, the
    [MigrateVM] calls issued, and the balancer state afterwards. *)
Record RunOutcome {S : Type} := mkOutcome {
  out_results : list BalancingResult;
  out_err : option string;
  out_calls : list (Z * string * string);
  out_state : S
}.
Arguments RunOutcome : clear implicits.

Definition call_of (m : Migration) : Z * string * string :=
  (vm_ID (m_VM m), m_FromNode m, m_ToNode m).

(** The load-profile and capacity-metric updates that precede the checks. *)
Definition prepare (b : AdvancedBalancer) (cl : Client) (availableNodes : list Node)
  : AdvancedBalancer :=
  let b1 := if cfg_LoadProfilesEnabled (ab_config b)
            then updateLoadProfiles b availableNodes else b in
  if cfg_CapacityEnabled (ab_config b1) then updateCapacityMetrics b1 cl availableNodes
  else b1.

Definition Run (b : AdvancedBalancer) (cl : Client) (now : Z) (force : bool)
  : RunOutcome AdvancedBalancer :=
  match GetNodes cl with
  | None => mkOutcome _ [] (Some "failed to get nodes") [] b
  | Some nodes =>
    let availableNodes := filterAvailableNodes b nodes in
    if (List.length availableNodes <? 2)%nat then
      mkOutcome _ [] (Some "insufficient available nodes for balancing") [] b
    else
    let b2 := prepare b cl availableNodes in
    if negb force && negb (needsBalancing b2 availableNodes) then mkOutcome _ [] None [] b2
    else
    let aggConfig := GetAggressivenessConfig (ab_config b2) in
    let inCooldown := match ab_lastRun b2 with
                      | Some t => (now - t <? CooldownPeriod aggConfig)%Z
                      | None => false    (* time.Since(time.Time{}) is huge *)
                      end in
    if negb force && inCooldown then mkOutcome _ [] None [] b2
    else
    let nodeScores := calculateAdvancedNodeScores b2 now availableNodes in
    let migrations := findOptimalMigrations b2 now availableNodes nodeScores aggConfig in
    let results := executeMigrations cl now migrations in
    let b3 := updateMigrationHistory b2 now results in
    mkOutcome _ results None (map call_of migrations) (set_lastRun b3 (Some now))
  end.

(** ** Threshold balancer (the [Balancer] of package [balancer]) *)

Module Threshold.

Record Balancer := mkBalancer {
  tb_config : Config;
  tb_engine : Engine;
  tb_lastRun : option Z
}.

Definition NewBalancer (cfg : Config) : Balancer := mkBalancer cfg NewEngine None.

(** Only the maintenance list is consulted; the node status is not. *)
Definition filterAvailableNodes (b : Balancer) (nodes : list Node) : list Node :=
  filter (fun n => negb (isInMaintenance (tb_config b) (node_Name n))) nodes.

Definition needsBalancing (b : Balancer) (nodes : list Node) : bool :=
  existsb (fun n => negb (isInMaintenance (tb_config b) (node_Name n))
                    && exceeds (tb_config b) n) nodes.

Definition calculateNodeScore (b : Balancer) (n : Node) : NodeScore :=
  let c := tb_config b in
  let cpuScore := node_CPU n / 100 in
  let memoryScore := node_Memory n / 100 in
  let storageScore := node_Storage n / 100 in
  let weightedScore := fadd (fadd (fmul (FNum cpuScore) (FNum (cfg_WeightCPU c)))
                                  (fmul (FNum memoryScore) (FNum (cfg_WeightMemory c))))
                            (fmul (FNum storageScore) (FNum (cfg_WeightStorage c))) in
  let totalWeight := fadd (fadd (FNum (cfg_WeightCPU c)) (FNum (cfg_WeightMemory c)))
                          (FNum (cfg_WeightStorage c)) in
  mkScore (node_Name n) (fdiv weightedScore totalWeight) cpuScore memoryScore storageScore.

(** The divisor of [calculateNodeScore], summed as Go sums it. *)
Definition weightTotal (c : Config) : Q :=
  cfg_WeightCPU c + cfg_WeightMemory c + cfg_WeightStorage c.

Definition calculateNodeScores (b : Balancer) (nodes : list Node) : list NodeScore :=
  sort_by (fun x y => flt (ns_Score x) (ns_Score y)) (map (calculateNodeScore b) nodes).

Definition findBestTargetNode (b : Balancer) (vm : VM) (nodeScores : list NodeScore)
  : string :=
  let candidates := map ns_Node (filter (fun s => negb (String.eqb (ns_Node s) (vm_Node vm)))
                                       nodeScores) in
  let validNodes := GetValidTargetNodes (tb_engine b) vm candidates in
  match validNodes with
  | [] => ""
  | _ => match find (fun s => existsb (String.eqb (ns_Node s)) validNodes) nodeScores with
         | Some s => ns_Node s
         | None => ""
         end
  end.

(** The last score of each node wins; a missing node has the zero [NodeScore]. *)
Definition last_score (name : string) (nodeScores : list NodeScore) : float :=
  fold_left (fun acc s => if String.eqb (ns_Node s) name then ns_Score s else acc)
    nodeScores (FNum 0).

Definition calculateResourceGain (sourceNode targetNode : string)
  (nodeScores : list NodeScore) : float :=
  fmax (FNum 0) (fsub (last_score sourceNode nodeScores) (last_score targetNode nodeScores)).

Definition findMigrations (b : Balancer) (now : Z) (nodes : list Node)
  (nodeScores : list NodeScore) : list Migration :=
  let sourceNodes := filter (fun n => negb (isInMaintenance (tb_config b) (node_Name n))
                                      && exceeds (tb_config b) n) nodes in
  flat_map (fun src =>
    flat_map (fun vm =>
      if IsIgnored (tb_engine b) (vm_ID vm) then []
      else
        let targetNode := findBestTargetNode b vm nodeScores in
        if String.eqb targetNode "" then []
        else if fle (calculateResourceGain (node_Name src) targetNode nodeScores) (FNum 0)
        then []
        else [mkMigration vm (node_Name src) targetNode "pending" now])
      (node_VMs src)) sourceNodes.

(** [executeMigration] re-reads the nodes for the reported gain, then migrates. *)
Definition executeMigration (b : Balancer) (cl : Client) (now : Z) (m : Migration)
  : BalancingResult * list (Z * string * string) :=
  match GetNodes cl with
  | None => (mkResult (m_FromNode m) (m_ToNode m) (m_VM m) "load balancing" (FNum 0) now false
               "failed to get nodes for scoring", [])
  | Some currentNodes =>
    let gain := calculateResourceGain (m_FromNode m) (m_ToNode m)
                  (calculateNodeScores b currentNodes) in
    match MigrateVM cl (vm_ID (m_VM m)) (m_FromNode m) (m_ToNode m) with
    | Some msg => (mkResult (m_FromNode m) (m_ToNode m) (m_VM m) "load balancing" gain now
                     false msg, [call_of m])
    | None => (mkResult (m_FromNode m) (m_ToNode m) (m_VM m) "load balancing" gain now
                 true "", [call_of m])
    end
  end.

Definition set_engine (b : Balancer) e := mkBalancer (tb_config b) e (tb_lastRun b).

Definition Run (b : Balancer) (cl : Client) (now : Z) (force : bool)
  : RunOutcome Balancer :=
  match GetNodes cl with
  | None => mkOutcome _ [] (Some "failed to get nodes") [] b
  | Some nodes =>
    let availableNodes := filterAvailableNodes b nodes in
    if (List.length availableNodes <? 2)%nat then
      mkOutcome _ [] (Some "insufficient available nodes for balancing (need at least 2)") [] b
    else
    let allVMs := flat_map node_VMs nodes in
    let b1 := set_engine b (ProcessVMs (tb_engine b) allVMs) in
    if negb force && negb (needsBalancing b1 nodes) then mkOutcome _ [] None [] b1
    else
    let nodeScores := calculateNodeScores b1 availableNodes in
    let migrations := findMigrations b1 now nodes nodeScores in
    let outs := map (executeMigration b1 cl now) migrations in
    mkOutcome _ (map fst outs) None (flat_map snd outs)
      (mkBalancer (tb_config b1) (tb_engine b1) (Some now))
  end.

End Threshold.

(** ** Definitions used by the statements *)

(** The spec's percentile index: [round((n-1)*p)] (halves rounded up, as
    [math.Round] does for non-negative values) clamped to [[0, n-1]]. *)
Definition spec_round (x : Q) : Z := Qfloor (x + (1 # 2)).

Definition spec_percentile_index (n : nat) (p : Q) : nat :=
  Nat.min (n - 1) (Z.to_nat (Z.max 0 (spec_round (inject_Z (Z.of_nat n - 1) * p)))).

Definition list_max (l : list Q) : Q :=
  match l with [] => 0 | x :: r => fold_left Qmax r x end.

Definition list_min (l : list Q) : Q :=
  match l with [] => 0 | x :: r => fold_left Qmin r x end.


(** The checks a migration passed before [findOptimalMigrations] appended it. *)
Definition planned_ok (b : AdvancedBalancer) (now : Z) (sc : list NodeScore)
  (ag : AggressivenessConfig) (m : Migration) : Prop :=
  canMigrateVM b now (m_VM m) (m_FromNode m) = true /\
  flt (calculateResourceGain (m_FromNode m) (m_ToNode m) sc) (FNum (MinImprovement ag)) = false.

(** A sequence of cycles of one advanced balancer: client, clock, force flag. *)
Fixpoint run_trace (b : AdvancedBalancer) (cycles : list (Client * Z * bool))
  : list (RunOutcome AdvancedBalancer) :=
  match cycles with
  | [] => []
  | (cl, now, force) :: rest =>
      let o := Run b cl now force in o :: run_trace (out_state o) rest
  end.

Definition migrates_vm (o : RunOutcome AdvancedBalancer) (v : Z) : Prop :=
  exists r, In r (out_results o) /\ vm_ID (r_VM r) = v.

(** Some other member of the group is on [t] / on a host other than [t]. *)
Definition other_on (vm : VM) (t : string) (grp : Group) : Prop :=
  exists o, In o (g_VMs grp) /\ vm_ID o <> vm_ID vm /\ vm_Node o = t.

Definition other_off (vm : VM) (t : string) (grp : Group) : Prop :=
  exists o, In o (g_VMs grp) /\ vm_ID o <> vm_ID vm /\ vm_Node o <> t.

(** ** Concrete inputs *)

Definition vm100 (tags : list string) : VM :=
  mkVM 100 "vm100" "a" "qemu" "running" 50 0 tags None.

(** Seed scenario 1/2 of the spec: [a] overloaded, [b] lightly loaded. *)
Definition nodeA (tags : list string) : Node := mkNode "a" "online" 85 75 80 [vm100 tags].
Definition nodeB : Node := mkNode "b" "online" 30 25 20 [].


Definition nodeB_offline : Node := mkNode "b" "offline" 30 25 20 [].

Definition client_of (nodes : list Node) : Client :=
  mkClient (Some nodes) (fun _ _ => None) (fun _ _ _ => None).

Definition small_vm (id : Z) : VM :=
  mkVM id "small" "a" "qemu" "running" 5 0 [] None.

(** Six untagged VMs on an overloaded node. *)
Definition nodeA6 : Node :=
  mkNode "a" "online" 95 75 80 (map small_vm [101; 102; 103; 104; 105; 106]%Z).

Definition tagged_vm (id : Z) (name node : string) (tags : list string) : VM :=
  mkVM id name node "qemu" "running" 5 0 tags None.

(** Seed scenario 3 of the spec: an affinity group spread over [a] and [b]. *)
Definition web_vms : list VM :=
  [tagged_vm 1 "web1" "a" ["plb_affinity_web"]; tagged_vm 2 "web2" "b" ["plb_affinity_web"];
   tagged_vm 3 "web3" "a" ["plb_affinity_web"]].

(** [m] is in two affinity groups: [g1], whose other member is on [b], and
    [g2], whose other member is on [c]. *)
Definition two_group_vms : list VM :=
  [tagged_vm 1 "m" "a" ["plb_affinity_g1"; "plb_affinity_g2"];
   tagged_vm 2 "x1" "b" ["plb_affinity_g1"];
   tagged_vm 3 "x2" "c" ["plb_affinity_g2"]].

Definition samples10 : list Q := [10; 20; 30; 40; 50; 60; 70; 80; 90; 100].

(** ** Definitions used by the rule-engine properties *)

(** A tag, trimmed as [processVM] trims it, starts with [p]; the text after [p]. *)
Definition tag_has (p t : string) : bool := HasPrefix (TrimSpace t) p.
Definition tag_arg (p t : string) : string := TrimPrefix (TrimSpace t) p.

(** Every (VM, tag) pair of a VM list, in the order [ProcessVMs] visits them. *)
Definition vm_tags (vms : list VM) : list (VM * string) :=
  flat_map (fun vm => map (fun t => (vm, t)) (vm_Tags vm)) vms.

(** A list with later duplicates dropped, built as [addNodeToGroup] builds it. *)
Definition dedup (l : list string) : list string :=
  fold_left (fun ns n => addNodeToGroup n ns) l [].

(** The group names the tags with prefix [p] declare, in first-seen order. *)
Definition group_keys (p : string) (vms : list VM) : list string :=
  dedup (map (fun vt => tag_arg p (snd vt)) (filter (fun vt => tag_has p (snd vt)) (vm_tags vms))).

(** One entry per tag naming group [k]: a VM with two such tags is listed twice. *)
Definition group_members (p k : string) (vms : list VM) : list VM :=
  map fst (filter (fun vt => tag_has p (snd vt) && String.eqb (tag_arg p (snd vt)) k)
             (vm_tags vms)).

Definition group_of (p k : string) (vms : list VM) : option Group :=
  match group_members p k vms with
  | [] => None
  | ms => Some (mkGroup k ms (dedup (map vm_Node ms)))
  end.

(** The pin targets the tags of the VMs with ID [id] name, in tag order. *)
Definition pin_targets (vms : list VM) (id : Z) : list string :=
  map (fun vt => tag_arg "plb_pin_" (snd vt))
    (filter (fun vt => Z.eqb id (vm_ID (fst vt)) && tag_has "plb_pin_" (snd vt)) (vm_tags vms)).

(** One step of [ProcessVMs] over the (VM, tag) pairs. *)
Definition tag_step (e : Engine) (vt : VM * string) : Engine := processTag (fst vt) e (snd vt).

Definition members_of (p k : string) (ps : list (VM * string)) : list VM :=
  map fst (filter (fun vt => tag_has p (snd vt) && String.eqb (tag_arg p (snd vt)) k) ps).

Definition ignore_tagged (vms : list VM) (id : Z) : bool :=
  existsb (fun vt => Z.eqb id (vm_ID (fst vt)) && tag_has "plb_ignore_" (snd vt)) (vm_tags vms).

(** * Properties *)

Open Scope list_scope.

(** ** Sorting *)

Section SortFacts.

Lemma insert_by_perm {A} (less : A -> A -> bool) (x : A) (l : list A) :
  Permutation (x :: l) (insert_by less x l).
Proof.
  induction l as [|y l IH]; simpl; [reflexivity|].
  destruct (less x y); [reflexivity|].
  rewrite perm_swap. now apply perm_skip.
Qed.

Lemma sort_by_perm_acc {A} (less : A -> A -> bool) (l acc : list A) :
  Permutation (acc ++ l) (fold_left (fun acc x => insert_by less x acc) l acc).
Proof.
  revert acc; induction l as [|x l IH]; intros acc; simpl.
  - now rewrite app_nil_r.
  - rewrite <- IH. rewrite <- Permutation_middle.
    change (x :: acc ++ l) with ((x :: acc) ++ l).
    apply Permutation_app_tail, insert_by_perm.
Qed.

Lemma sort_by_perm {A} (less : A -> A -> bool) (l : list A) :
  Permutation l (sort_by less l).
Proof. apply (sort_by_perm_acc less l []). Qed.

Lemma Qltb_false (x y : Q) : Qltb x y = false -> y <= x.
Proof.
  unfold Qltb; intros H. apply Bool.negb_false_iff in H. now apply Qle_bool_iff.
Qed.

Lemma Qltb_true (x y : Q) : Qltb x y = true -> x < y.
Proof.
  unfold Qltb; intros H. apply Bool.negb_true_iff in H.
  apply Qnot_le_lt. intros Hle. apply Qle_bool_iff in Hle. congruence.
Qed.

Lemma insert_sorted (x : Q) (l : list Q) :
  StronglySorted Qle l -> StronglySorted Qle (insert_by Qltb x l).
Proof.
  induction l as [|y l IH]; intros Hs; simpl.
  - repeat constructor.
  - inversion Hs as [|? ? Hl Hy]; subst.
    destruct (Qltb x y) eqn:E.
    + apply Qltb_true in E. constructor; [exact Hs|].
      constructor; [now apply Qlt_le_weak|].
      eapply Forall_impl; [|exact Hy]. intros z Hz.
      apply Qle_trans with y; [now apply Qlt_le_weak|exact Hz].
    + apply Qltb_false in E. constructor; [now apply IH|].
      apply (Permutation_Forall (insert_by_perm Qltb x l)). now constructor.
Qed.

Lemma sort_by_sorted (l : list Q) : StronglySorted Qle (sort_by Qltb l).
Proof.
  unfold sort_by.
  assert (H : forall acc, StronglySorted Qle acc ->
            StronglySorted Qle (fold_left (fun acc x => insert_by Qltb x acc) l acc)).
  { induction l as [|x l IH]; intros acc Hacc; simpl; [exact Hacc|].
    apply IH, insert_sorted, Hacc. }
  apply H; constructor.
Qed.

Lemma sorted_nth_le (l : list Q) (i j : nat) :
  StronglySorted Qle l -> (i <= j)%nat -> (j < List.length l)%nat ->
  nth i l 0 <= nth j l 0.
Proof.
  revert i j; induction l as [|y l IH]; intros i j Hs Hij Hj; simpl in *; [lia|].
  inversion Hs as [|? ? Hl Hy]; subst.
  destruct i as [|i], j as [|j].
  - apply Qle_refl.
  - rewrite Forall_forall in Hy. apply Hy, nth_In. lia.
  - lia.
  - apply IH; auto; lia.
Qed.

End SortFacts.

(** ** Percentile indices *)

Section PercentileFacts.

Lemma nminus1_nonneg (n : nat) : (1 <= n)%nat -> 0 <= inject_Z (Z.of_nat n - 1).
Proof.
  intros Hn. unfold Qle; simpl. lia.
Qed.

Lemma percentile_index_spec (n : nat) (p : Q) :
  (1 <= n)%nat -> 0 <= p -> percentile_index n p = spec_percentile_index n p.
Proof.
  intros Hn Hp. unfold percentile_index, spec_percentile_index, spec_round, go_int.
  set (x := inject_Z (Z.of_nat n - 1) * p).
  assert (Hx : 0 <= x) by (apply Qmult_le_0_compat; [apply nminus1_nonneg|]; assumption).
  assert (Hx2 : 0 <= x + (1 # 2)).
  { apply Qle_trans with (0 + 0); [apply Qle_refl|].
    apply Qplus_le_compat; [exact Hx|discriminate]. }
  assert (Hb : Qle_bool 0 (x + (1 # 2)) = true) by (now apply Qle_bool_iff).
  rewrite Hb.
  assert (Hf : (0 <= Qfloor (x + (1 # 2)))%Z).
  { change 0%Z with (Qfloor 0). now apply Qfloor_resp_le. }
  rewrite Z.max_r by exact Hf.
  destruct (n <=? Z.to_nat (Qfloor (x + (1 # 2))))%nat eqn:E.
  - apply Nat.leb_le in E. lia.
  - apply Nat.leb_gt in E. lia.
Qed.

Lemma percentile_index_lt (n : nat) (p : Q) :
  (1 <= n)%nat -> (percentile_index n p < n)%nat.
Proof.
  intros Hn. unfold percentile_index.
  destruct (n <=? _)%nat eqn:E; [lia|]. apply Nat.leb_gt in E. exact E.
Qed.

Lemma percentile_index_mono (n : nat) (p1 p2 : Q) :
  (1 <= n)%nat -> 0 <= p1 -> p1 <= p2 ->
  (percentile_index n p1 <= percentile_index n p2)%nat.
Proof.
  intros Hn H1 H12.
  assert (H2 : 0 <= p2) by (eapply Qle_trans; eassumption).
  rewrite !percentile_index_spec by assumption.
  unfold spec_percentile_index, spec_round.
  apply Nat.min_le_compat_l, Z2Nat.inj_le.
  - apply Z.le_max_l.
  - apply Z.le_max_l.
  - apply Z.max_le_compat_l, Qfloor_resp_le.
    apply Qplus_le_l.
    apply Qmult_le_compat_nonneg; split; auto using Qle_refl, nminus1_nonneg.
Qed.

Lemma fold_Qmax_ge (r : list Q) (acc : Q) :
  acc <= fold_left Qmax r acc /\ (forall y, In y r -> y <= fold_left Qmax r acc).
Proof.
  revert acc; induction r as [|z r IH]; intros acc; simpl.
  - split; [apply Qle_refl|tauto].
  - destruct (IH (Qmax acc z)) as [Ha Hr]. split.
    + eapply Qle_trans; [apply Q.le_max_l|exact Ha].
    + intros y [<-|Hy]; [|now apply Hr].
      eapply Qle_trans; [apply Q.le_max_r|exact Ha].
Qed.

Lemma list_max_ge (l : list Q) (y : Q) : In y l -> y <= list_max l.
Proof.
  destruct l as [|x r]; simpl; [tauto|].
  destruct (fold_Qmax_ge r x) as [Ha Hr]. intros [<-|Hy]; auto.
Qed.

Lemma fold_Qmin_le (r : list Q) (acc : Q) :
  fold_left Qmin r acc <= acc /\ (forall y, In y r -> fold_left Qmin r acc <= y).
Proof.
  revert acc; induction r as [|z r IH]; intros acc; simpl.
  - split; [apply Qle_refl|tauto].
  - destruct (IH (Qmin acc z)) as [Ha Hr]. split.
    + eapply Qle_trans; [exact Ha|apply Q.le_min_l].
    + intros y [<-|Hy]; [|now apply Hr].
      eapply Qle_trans; [exact Ha|apply Q.le_min_r].
Qed.

Lemma list_min_le (l : list Q) (y : Q) : In y l -> list_min l <= y.
Proof.
  destruct l as [|x r]; simpl; [tauto|].
  destruct (fold_Qmin_le r x) as [Ha Hr]. intros [<-|Hy]; auto.
Qed.

End PercentileFacts.

(** ** C6, C7: percentiles *)

Lemma calculatePercentiles_nonempty (l : list Q) :
  l <> [] ->
  let s := sort_by Qltb l in
  let n := List.length l in
  calculatePercentiles l = mkMetrics
      (nth (percentile_index n (1 # 2)) s 0) (nth (percentile_index n (9 # 10)) s 0)
      (nth (percentile_index n (95 # 100)) s 0) (nth (percentile_index n (99 # 100)) s 0)
      (nth (percentile_index n (1 # 10)) s 0) (nth (percentile_index n (9 # 10)) s 0)
      (sumQ s / inject_Z (Z.of_nat n))
      (sumQ (map (fun v => (v - sumQ s / inject_Z (Z.of_nat n))
                           * (v - sumQ s / inject_Z (Z.of_nat n))) s)
       / inject_Z (Z.of_nat n)).
Proof.
  intros Hne s n.
  assert (Hlen : List.length s = n) by (symmetry; apply Permutation_length, sort_by_perm).
  unfold calculatePercentiles. destruct l; [congruence|].
  fold s. rewrite Hlen. reflexivity.
Qed.

Lemma length_pos (l : list Q) : l <> [] -> (1 <= List.length l)%nat.
Proof. destruct l; [congruence|simpl; lia]. Qed.

(** C6: for every non-empty sample list, the percentile computation sorts
    the samples ascending and picks, for p in {0.10, 0.50, 0.90, 0.95, 0.99},
    the element at index round((n-1)p) clamped to [0, n-1]; on the samples
    10, 20, ..., 100 it yields p50 = 60, p90 = 90, p95 = 100, p99 = 100. *)
Theorem calculatePercentiles_picks_rounded_index (l : list Q) (Hne : l <> []) :
  let s := sort_by Qltb l in
  let n := List.length l in
  let m := calculatePercentiles l in
  (Permutation l s /\ StronglySorted Qle s) /\
  P50 m = nth (spec_percentile_index n (1 # 2)) s 0 /\
  P90 m = nth (spec_percentile_index n (9 # 10)) s 0 /\
  P95 m = nth (spec_percentile_index n (95 # 100)) s 0 /\
  P99 m = nth (spec_percentile_index n (99 # 100)) s 0 /\
  MinP90 m = nth (spec_percentile_index n (1 # 10)) s 0 /\
  MaxP90 m = nth (spec_percentile_index n (9 # 10)) s 0 /\
  (P50 (calculatePercentiles samples10) == 60 /\ P90 (calculatePercentiles samples10) == 90 /\
   P95 (calculatePercentiles samples10) == 100 /\ P99 (calculatePercentiles samples10) == 100).
Proof.
  intros s n m.
  assert (Hn : (1 <= n)%nat) by now apply length_pos.
  subst m. rewrite (calculatePercentiles_nonempty l Hne); simpl.
  rewrite !percentile_index_spec by (assumption || discriminate).
  split; [split; [apply sort_by_perm|apply sort_by_sorted]|].
  repeat split; try reflexivity; vm_compute; reflexivity.
Qed.

(** C7: for every non-empty sample list, p50 <= p90 <= p95 <= p99 <= max of
    the samples, and min of the samples <= min_p90. *)
Theorem calculatePercentiles_ordered (l : list Q) (Hne : l <> []) :
  let m := calculatePercentiles l in
  P50 m <= P90 m /\ P90 m <= P95 m /\ P95 m <= P99 m /\
  P99 m <= list_max l /\ list_min l <= MinP90 m.
Proof.
  intros m. subst m.
  pose proof (length_pos l Hne) as Hn.
  pose proof (sort_by_perm Qltb l) as Hp.
  pose proof (sort_by_sorted l) as Hs.
  assert (Hlen : List.length (sort_by Qltb l) = List.length l)
    by (symmetry; now apply Permutation_length).
  assert (Hin : forall p, In (nth (percentile_index (List.length l) p) (sort_by Qltb l) 0) l).
  { intros p. apply (Permutation_in _ (Permutation_sym Hp)), nth_In.
    rewrite Hlen. now apply percentile_index_lt. }
  rewrite (calculatePercentiles_nonempty l Hne); simpl.
  repeat split.
  - apply sorted_nth_le; auto.
    + apply percentile_index_mono; auto; discriminate.
    + rewrite Hlen. now apply percentile_index_lt.
  - apply sorted_nth_le; auto.
    + apply percentile_index_mono; auto; discriminate.
    + rewrite Hlen. now apply percentile_index_lt.
  - apply sorted_nth_le; auto.
    + apply percentile_index_mono; auto; discriminate.
    + rewrite Hlen. now apply percentile_index_lt.
  - apply list_max_ge, Hin.
  - apply list_min_le, Hin.
Qed.

(** ** C8: migration cost *)

Lemma go_int_nonneg (q : Q) : 0 <= q -> go_int q = Qfloor q.
Proof.
  intros H. unfold go_int. apply Qle_bool_iff in H. now rewrite H.
Qed.

Lemma advanced_scores_from_nodes (b : AdvancedBalancer) (now : Z) (nodes : list Node)
  (s : NodeScore) :
  In s (calculateAdvancedNodeScores b now nodes) -> exists n, In n nodes /\ s = advancedScore b now n.
Proof.
  intros Hs. unfold calculateAdvancedNodeScores in Hs.
  apply (Permutation_in _ (Permutation_sym (sort_by_perm _ _))) in Hs.
  apply in_map_iff in Hs. destruct Hs as [n [<- Hn]]. eauto.
Qed.

(** C8 (counterexample): on a host at 50% CPU and 50% memory the cost is
    0.5, not (50 + 50) / 2 = 50. *)
Lemma calculateMigrationCost_not_half_sum :
  let h := mkNode "h" "online" 50 50 0 [] in
  ~ (calculateMigrationCost h == (node_CPU h + node_Memory h) / 2).
Proof. vm_compute. discriminate. Qed.

(** C8 (amended): every score of the advanced scoring is
    0.4 resource + 0.2 stability + 0.3 capacity + 0.1 cost, and for a host
    with non-negative usages cost = (int(cpu_pct) + int(mem_pct)) / 200, plus
    10 when int(cpu_pct) > 80 or int(mem_pct) > 80 (int truncates). *)
Theorem calculateMigrationCost_truncated (b : AdvancedBalancer) (now : Z) (nodes : list Node)
  (s : NodeScore) (Hs : In s (calculateAdvancedNodeScores b now nodes)) :
  exists h, In h nodes /\ ns_Node s = node_Name h /\
    ns_Score s = fadd (fadd (fadd (fmul (calculateResourceScore b h) (FNum (4 # 10)))
                                  (fmul (FNum (calculateStabilityScore b now h)) (FNum (2 # 10))))
                            (fmul (FNum (calculateCapacityScore b h)) (FNum (3 # 10))))
                      (fmul (FNum (calculateMigrationCost h)) (FNum (1 # 10))) /\
    (0 <= node_CPU h -> 0 <= node_Memory h ->
     calculateMigrationCost h ==
       inject_Z (Qfloor (node_CPU h) + Qfloor (node_Memory h)) / 200
       + (if ((80 <? Qfloor (node_CPU h)) || (80 <? Qfloor (node_Memory h)))%Z then 10 else 0)).
Proof.
  destruct (advanced_scores_from_nodes b now nodes s Hs) as [h [Hh ->]].
  exists h. split; [exact Hh|]. split; [reflexivity|]. split; [reflexivity|].
  intros Hc Hm. unfold calculateMigrationCost.
  rewrite (go_int_nonneg _ Hc), (go_int_nonneg _ Hm).
  destruct (_ || _)%Z; [apply Qeq_refl|].
  rewrite Qplus_0_r. apply Qeq_refl.
Qed.

(** ** C9: affinity constraints *)

Lemma firstGroupCheck_unique check vm t (gs : list (string * Group)) g grp :
  In (g, grp) gs ->
  (forall p, In p gs -> findVMInGroup (vm_ID vm) (snd p) <> None -> p = (g, grp)) ->
  findVMInGroup (vm_ID vm) grp <> None ->
  firstGroupCheck check vm t gs = check vm t grp.
Proof.
  induction gs as [|[g' grp'] gs IH]; intros Hin Huniq Hfind; [destruct Hin|].
  simpl. destruct (findVMInGroup (vm_ID vm) grp') eqn:E.
  - assert (Heq : (g', grp') = (g, grp)) by (apply Huniq; [left; reflexivity|simpl; congruence]).
    inversion Heq; reflexivity.
  - destruct Hin as [Heq|Hin].
    + inversion Heq; subst. congruence.
    + apply IH; auto. intros p Hp. apply Huniq. now right.
Qed.

Lemma validateAffinityRules_unique (e e' : Engine) vm t g grp :
  same_maps e e' ->
  In (g, grp) (affinityGroups e) ->
  (forall p, In p (affinityGroups e) -> findVMInGroup (vm_ID vm) (snd p) <> None ->
             p = (g, grp)) ->
  findVMInGroup (vm_ID vm) grp <> None ->
  validateAffinityRules e' vm t = checkAffinityConstraints vm t grp.
Proof.
  intros [Hperm _] Hin Huniq Hfind. unfold validateAffinityRules.
  apply (firstGroupCheck_unique _ _ _ _ g grp); auto.
  - exact (Permutation_in _ Hperm Hin).
  - intros p Hp. apply Huniq. exact (Permutation_in _ (Permutation_sym Hperm) Hp).
Qed.

Lemma checkAffinity_cases vm t grp :
  (other_on vm t grp -> checkAffinityConstraints vm t grp = None) /\
  (other_off vm t grp -> ~ other_on vm t grp ->
     checkAffinityConstraints vm t grp = Some (ErrAffinity (vm_Name vm) (g_Tag grp) t)) /\
  ((forall o, In o (g_VMs grp) -> vm_ID o = vm_ID vm) -> checkAffinityConstraints vm t grp = None).
Proof.
  unfold checkAffinityConstraints, other_on, other_off. repeat split.
  - intros [o [Ho [Hid Hn]]].
    replace (existsb _ (g_VMs grp)) with true; [reflexivity|].
    symmetry. apply existsb_exists. exists o. split; [exact Ho|].
    apply andb_true_intro; split.
    + apply negb_true_iff, Z.eqb_neq, Hid.
    + apply String.eqb_eq, Hn.
  - intros [o [Ho [Hid Hn]]] Hnot.
    replace (existsb (fun o0 => negb (vm_ID o0 =? vm_ID vm)%Z && String.eqb (vm_Node o0) t)
               (g_VMs grp)) with false.
    + replace (existsb _ (g_VMs grp)) with true; [reflexivity|].
      symmetry. apply existsb_exists. exists o. split; [exact Ho|].
      apply andb_true_intro; split.
      * apply negb_true_iff, Z.eqb_neq, Hid.
      * apply negb_true_iff, String.eqb_neq, Hn.
    + symmetry. apply not_true_iff_false. intros Hex.
      apply existsb_exists in Hex. destruct Hex as [o' [Ho' Hb]].
      apply andb_prop in Hb. destruct Hb as [H1 H2].
      apply Hnot. exists o'. split; [exact Ho'|]. split.
      * apply negb_true_iff, Z.eqb_neq in H1. exact H1.
      * apply String.eqb_eq, H2.
  - intros Hall.
    replace (existsb _ (g_VMs grp)) with false.
    + replace (existsb _ (g_VMs grp)) with false; [reflexivity|].
      symmetry. apply not_true_iff_false. intros Hex.
      apply existsb_exists in Hex. destruct Hex as [o [Ho Hb]].
      apply andb_prop in Hb. destruct Hb as [H1 _].
      apply negb_true_iff, Z.eqb_neq in H1. exact (H1 (Hall o Ho)).
    + symmetry. apply not_true_iff_false. intros Hex.
      apply existsb_exists in Hex. destruct Hex as [o [Ho Hb]].
      apply andb_prop in Hb. destruct Hb as [H1 _].
      apply negb_true_iff, Z.eqb_neq in H1. exact (H1 (Hall o Ho)).
Qed.

(** C9 (code bug): [m] is in the affinity groups [g1] and [g2]. Another
    member of [g1] is on [b], so the [g1] check passes; the only other member
    of [g2] is on [c] and none is on [b], so the [g2] check fails with the
    affinity error. [validateAffinityRules] returns the verdict of the first
    group of the map iteration that contains [m]: with the insertion order
    [ValidatePlacement m b] succeeds and the failing [g2] check is never
    made; with the other order of the same map it fails. *)
Theorem validatePlacement_first_group_decides :
  let e := ProcessVMs NewEngine two_group_vms in
  let vm := nth 0 two_group_vms (vm100 []) in
  exists g1 g2, alookup "g1" (affinityGroups e) = Some g1 /\
    alookup "g2" (affinityGroups e) = Some g2 /\
    findVMInGroup (vm_ID vm) g1 <> None /\ findVMInGroup (vm_ID vm) g2 <> None /\
    other_on vm "b" g1 /\ other_off vm "b" g2 /\ ~ other_on vm "b" g2 /\
    checkAffinityConstraints vm "b" g1 = None /\
    checkAffinityConstraints vm "b" g2 = Some (ErrAffinity "m" "g2" "b") /\
    ValidatePlacement e vm "b" = None /\
    exists e', same_maps e e' /\ ValidatePlacement e' vm "b" = Some (ErrAffinity "m" "g2" "b").
Proof.
  intros e vm.
  set (x1 := tagged_vm 2 "x1" "b" ["plb_affinity_g1"]).
  set (x2 := tagged_vm 3 "x2" "c" ["plb_affinity_g2"]).
  exists (mkGroup "g1" [vm; x1] ["a"; "b"]), (mkGroup "g2" [vm; x2] ["a"; "c"]).
  split; [vm_compute; reflexivity|]. split; [vm_compute; reflexivity|].
  split; [vm_compute; discriminate|]. split; [vm_compute; discriminate|].
  split; [exists x1; simpl; split; [auto|split; [discriminate|reflexivity]]|].
  split; [exists x2; simpl; split; [auto|split; discriminate]|].
  split.
  { intros [o [Ho [Hid Hn]]]. simpl in Ho.
    destruct Ho as [<-|[<-|[]]]; [apply Hid; reflexivity|discriminate Hn]. }
  split; [vm_compute; reflexivity|]. split; [vm_compute; reflexivity|].
  split; [vm_compute; reflexivity|].
  exists (mkEngine (rev (affinityGroups e)) (antiAffinityGroups e) (pinnedVMs e) (ignoredVMs e)).
  split.
  - split; [apply Permutation_rev|split; [apply Permutation_refl|split; reflexivity]].
  - vm_compute. reflexivity.
Qed.

(** For an engine that ingested a VM list (its maps iterated in
    any order), a VM [vm] that is neither ignored nor pinned away from [t]
    and whose only affinity group is [G]: [ValidatePlacement vm t] is the
    anti-affinity verdict when another member of [G] is on [t] or when [vm]
    is the only member of [G]; it is the affinity error when another member
    is on a host other than [t] and none is on [t]. *)
Theorem validatePlacement_affinity_single_group (vms : list VM) (e' : Engine) (vm : VM)
  (t g : string) (grp : Group)
  (Hmaps : same_maps (ProcessVMs NewEngine vms) e')
  (Hin : In (g, grp) (affinityGroups (ProcessVMs NewEngine vms)))
  (Hmem : findVMInGroup (vm_ID vm) grp <> None)
  (Honly : forall p, In p (affinityGroups (ProcessVMs NewEngine vms)) ->
           findVMInGroup (vm_ID vm) (snd p) <> None -> p = (g, grp))
  (Hign : validateIgnoreRules e' vm = None)
  (Hpin : validatePinningRules e' vm t = None) :
  (other_on vm t grp -> ValidatePlacement e' vm t = validateAntiAffinityRules e' vm t) /\
  (other_off vm t grp -> ~ other_on vm t grp ->
     ValidatePlacement e' vm t = Some (ErrAffinity (vm_Name vm) (g_Tag grp) t)) /\
  ((forall o, In o (g_VMs grp) -> vm_ID o = vm_ID vm) ->
     ValidatePlacement e' vm t = validateAntiAffinityRules e' vm t).
Proof.
  pose proof (validateAffinityRules_unique _ e' vm t g grp Hmaps Hin Honly Hmem) as Hv.
  destruct (checkAffinity_cases vm t grp) as [Ha [Hb Hc]].
  unfold ValidatePlacement. rewrite Hign, Hpin, Hv.
  repeat split.
  - intros H. now rewrite (Ha H).
  - intros H1 H2. now rewrite (Hb H1 H2).
  - intros H. now rewrite (Hc H).
Qed.

(** ** Facts about one advanced cycle *)

Section AdvancedCycle.

Lemma prepare_fields (b : AdvancedBalancer) (cl : Client) (nodes : list Node) :
  ab_config (prepare b cl nodes) = ab_config b /\
  ab_engine (prepare b cl nodes) = ab_engine b /\
  ab_lastRun (prepare b cl nodes) = ab_lastRun b /\
  ab_migrationHistory (prepare b cl nodes) = ab_migrationHistory b.
Proof.
  unfold prepare. destruct (cfg_LoadProfilesEnabled (ab_config b)); simpl;
    destruct (cfg_CapacityEnabled _); simpl; auto.
Qed.

Lemma Run_engine (b : AdvancedBalancer) (cl : Client) (now : Z) (force : bool) :
  ab_engine (out_state (Run b cl now force)) = ab_engine b.
Proof.
  unfold Run. destruct (GetNodes cl) as [nodes|]; [|reflexivity].
  destruct (_ <? 2)%nat; [reflexivity|].
  destruct (prepare_fields b cl (filterAvailableNodes b nodes)) as [_ [He _]].
  repeat match goal with |- context [if ?c then _ else _] => destruct c end;
    simpl; auto.
Qed.

(** The shape of a cycle that reaches the planner. *)
Lemma Run_cases (b : AdvancedBalancer) (cl : Client) (now : Z) (force : bool) :
  let o := Run b cl now force in
  (out_results o = [] /\ out_calls o = [] /\
   ab_migrationHistory (out_state o) = ab_migrationHistory b) \/
  exists nodes, GetNodes cl = Some nodes /\
    let avail := filterAvailableNodes b nodes in
    let b2 := prepare b cl avail in
    let migrations := findOptimalMigrations b2 now avail (calculateAdvancedNodeScores b2 now avail)
                        (GetAggressivenessConfig (ab_config b2)) in
    out_results o = executeMigrations cl now migrations /\
    out_calls o = map call_of migrations /\
    out_state o = set_lastRun (updateMigrationHistory b2 now (executeMigrations cl now migrations))
                    (Some now).
Proof.
  intros o. subst o. unfold Run.
  destruct (GetNodes cl) as [nodes|] eqn:Hg; [|left; simpl; auto].
  destruct (_ <? 2)%nat; [left; simpl; auto|].
  destruct (prepare_fields b cl (filterAvailableNodes b nodes)) as [_ [_ [_ Hh]]].
  destruct (negb force && _); [left; simpl; auto|].
  destruct (negb force && _); [left; simpl; auto|].
  right. exists nodes. split; [reflexivity|]. simpl. auto.
Qed.

Lemma scan_vms_bound b now sc aggr src vms acc :
  (List.length acc < 5)%nat ->
  (List.length (fst (scan_vms b now sc aggr src vms acc)) <= 5)%nat /\
  (snd (scan_vms b now sc aggr src vms acc) = false ->
   (List.length (fst (scan_vms b now sc aggr src vms acc)) < 5)%nat).
Proof.
  revert acc; induction vms as [|vm vms IH]; intros acc Hacc; [simpl; lia|].
  cbn [scan_vms].
  repeat match goal with |- context [if ?c then _ else _] => destruct c eqn:? end;
    try (apply IH; assumption).
  - match goal with H : (5 <=? _)%nat = true |- _ => apply Nat.leb_le in H end.
    simpl. rewrite length_app in *; simpl in *. split; [lia|discriminate].
  - apply IH. match goal with H : (5 <=? _)%nat = false |- _ => apply Nat.leb_gt in H; exact H end.
Qed.

Lemma scan_nodes_bound b now sc aggr ns acc :
  (List.length acc < 5)%nat -> (List.length (scan_nodes b now sc aggr ns acc) <= 5)%nat.
Proof.
  revert acc; induction ns as [|n ns IH]; intros acc Hacc; simpl; [lia|].
  destruct (scan_vms_bound b now sc aggr (node_Name n) (node_VMs n) acc Hacc) as [H1 H2].
  destruct (scan_vms b now sc aggr (node_Name n) (node_VMs n) acc) as [acc' stop].
  simpl in *. destruct stop; [exact H1|]. apply IH, H2; reflexivity.
Qed.

End AdvancedCycle.

(** ** C1: rule invariance *)

(** C1 (code bug): the advanced balancer's rule engine is the empty
    [NewEngine] and no cycle ever loads it, so on seed scenario 2 (an
    overloaded [a], a light [b], [vm100] on [a] tagged [plb_ignore_dev]) the
    cycle migrates [vm100] to [b], while the engine built from that snapshot
    rejects the placement because [vm100] is ignored. *)
Theorem advanced_plan_breaks_rules :
  (forall b cl now force, ab_engine (out_state (Run b cl now force)) = ab_engine b) /\
  out_calls (Run (NewAdvancedBalancer defaultConfig)
               (client_of [nodeA ["plb_ignore_dev"]; nodeB]) 1000000 false)
    = [(100%Z, "a", "b")] /\
  ValidatePlacement (ProcessVMs NewEngine (flat_map node_VMs [nodeA ["plb_ignore_dev"]; nodeB]))
    (vm100 ["plb_ignore_dev"]) "b" = Some (ErrIgnored "vm100").
Proof.
  split; [exact Run_engine|]. split; vm_compute; reflexivity.
Qed.

(** ** C2: plan bound *)

(** C2 (counterexample): the threshold balancer has no cap; with six
    untagged running VMs on an overloaded node it issues six migrations. *)
Lemma threshold_plan_six :
  List.length (out_calls (Threshold.Run (Threshold.NewBalancer defaultConfig)
                            (client_of [nodeA6; nodeB]) 0 false)) = 6%nat.
Proof. vm_compute. reflexivity. Qed.

(** C2 (amended): every cycle of the advanced balancer issues at most 5
    migrations and returns at most 5 results. *)
Theorem advanced_plan_at_most_five (b : AdvancedBalancer) (cl : Client) (now : Z) (force : bool) :
  (List.length (out_calls (Run b cl now force)) <= 5)%nat /\
  (List.length (out_results (Run b cl now force)) <= 5)%nat.
Proof.
  destruct (Run_cases b cl now force) as [[-> [-> _]]|[nodes [_ [Hr [Hc _]]]]];
    [simpl; lia|].
  rewrite Hr, Hc. unfold executeMigrations. rewrite !length_map.
  unfold findOptimalMigrations.
  match goal with |- context [scan_nodes ?b' now ?sc ?ag ?ns []] =>
    pose proof (scan_nodes_bound b' now sc ag ns [] ltac:(simpl; lia)) as H end.
  split; exact H.
Qed.

(** ** C5: balancing trigger *)

(** C5: if [force] is false and no available node exceeds a threshold of
    the configuration (defaults cpu 80, memory 85, storage 90), the advanced
    cycle returns an empty result list and issues no migration. *)
Theorem advanced_no_trigger_no_migration (b : AdvancedBalancer) (cl : Client) (now : Z)
  (Hcalm : forall nodes, GetNodes cl = Some nodes ->
           forall n, In n (filterAvailableNodes b nodes) -> exceeds (ab_config b) n = false) :
  out_results (Run b cl now false) = [] /\ out_calls (Run b cl now false) = [] /\
  (cfg_ThresholdCPU defaultConfig = 80 /\ cfg_ThresholdMemory defaultConfig = 85 /\
   cfg_ThresholdStorage defaultConfig = 90)%Z.
Proof.
  split; [|split; [|repeat split]].
  all: unfold Run; destruct (GetNodes cl) as [nodes|] eqn:Hg; try reflexivity.
  all: destruct (_ <? 2)%nat; try reflexivity.
  all: destruct (prepare_fields b cl (filterAvailableNodes b nodes)) as [Hcfg _].
  all: assert (Hn : needsBalancing (prepare b cl (filterAvailableNodes b nodes))
                      (filterAvailableNodes b nodes) = false)
         by (unfold needsBalancing; rewrite Hcfg; apply not_true_iff_false;
             intros Hex; apply existsb_exists in Hex; destruct Hex as [n [Hin He]];
             rewrite (Hcalm nodes eq_refl n Hin) in He; discriminate).
  all: rewrite Hn; reflexivity.
Qed.

(** ** C10: fewer than two available nodes *)

(** C10 (counterexample): the threshold balancer does not drop offline
    nodes; with [a] online and [b] offline it runs the cycle, returns no
    error and migrates [vm100] to the offline [b]. *)
Lemma threshold_counts_offline_nodes :
  let nodes := [nodeA []; nodeB_offline] in
  List.length (filterAvailableNodes (NewAdvancedBalancer defaultConfig) nodes) = 1%nat /\
  let o := Threshold.Run (Threshold.NewBalancer defaultConfig) (client_of nodes) 0 false in
  out_err o = None /\ out_calls o = [(100%Z, "a", "b")].
Proof. vm_compute. repeat split. Qed.

(** C10 (amended): when fewer than 2 nodes are online and out of
    maintenance, the advanced cycle fails; when fewer than 2 nodes are out of
    maintenance (whatever their status), the threshold cycle fails.  A
    failing cycle returns no results, issues no migration and leaves the
    balancer state (history, last-run time, engine) unchanged. *)
Theorem run_insufficient_nodes (cl : Client) (nodes : list Node) (now : Z) (force : bool)
  (Hg : GetNodes cl = Some nodes) :
  (forall b, (List.length (filterAvailableNodes b nodes) < 2)%nat ->
   let o := Run b cl now force in
   out_err o <> None /\ out_results o = [] /\ out_calls o = [] /\ out_state o = b) /\
  (forall tb, (List.length (Threshold.filterAvailableNodes tb nodes) < 2)%nat ->
   let o := Threshold.Run tb cl now force in
   out_err o <> None /\ out_results o = [] /\ out_calls o = [] /\ out_state o = tb).
Proof.
  split; intros b Hlt; unfold Run, Threshold.Run; rewrite Hg;
    apply Nat.ltb_lt in Hlt; rewrite Hlt; simpl; repeat split; discriminate.
Qed.

(** ** What the planner guarantees for each planned migration *)

Section PlanFacts.

Variables (b : AdvancedBalancer) (now : Z) (sc : list NodeScore) (ag : AggressivenessConfig).

Lemma scan_vms_ok src vms acc :
  Forall (planned_ok b now sc ag) acc -> Forall (planned_ok b now sc ag) (fst (scan_vms b now sc ag src vms acc)).
Proof.
  revert acc; induction vms as [|vm vms IH]; intros acc Hacc; [exact Hacc|].
  cbn [scan_vms].
  destruct (negb (String.eqb (vm_Status vm) "running")); [apply IH, Hacc|].
  destruct (canMigrateVM b now vm src) eqn:Hc; [|apply IH, Hacc].
  destruct (String.eqb (findBestTargetNode b vm sc src) ""); [apply IH, Hacc|].
  destruct (flt _ _) eqn:Hg; [apply IH, Hacc|].
  assert (Hacc' : Forall (planned_ok b now sc ag)
                    (acc ++ [mkMigration vm src (findBestTargetNode b vm sc src) "pending" now]))
    by (apply Forall_app; split; [exact Hacc|constructor; [split; assumption|constructor]]).
  destruct (5 <=? _)%nat; [exact Hacc'|apply IH, Hacc'].
Qed.

Lemma scan_nodes_ok ns acc :
  Forall (planned_ok b now sc ag) acc -> Forall (planned_ok b now sc ag) (scan_nodes b now sc ag ns acc).
Proof.
  revert acc; induction ns as [|n ns IH]; intros acc Hacc; simpl; [exact Hacc|].
  pose proof (scan_vms_ok (node_Name n) (node_VMs n) acc Hacc) as H.
  destruct (scan_vms b now sc ag (node_Name n) (node_VMs n) acc) as [acc' stop].
  destruct stop; [exact H|apply IH, H].
Qed.

End PlanFacts.

Lemma findOptimalMigrations_ok b now nodes sc ag m :
  In m (findOptimalMigrations b now nodes sc ag) -> planned_ok b now sc ag m.
Proof.
  intros Hin. unfold findOptimalMigrations in Hin.
  pose proof (scan_nodes_ok b now sc ag (filter (isOverloaded (ab_config b)) nodes) []
                (Forall_nil _)) as H.
  rewrite Forall_forall in H. exact (H m Hin).
Qed.



Lemma Run_planned_result (b : AdvancedBalancer) (cl : Client) (now : Z) (force : bool) r :
  In r (out_results (Run b cl now force)) ->
  exists nodes m, GetNodes cl = Some nodes /\
    let avail := filterAvailableNodes b nodes in
    let b2 := prepare b cl avail in
    let sc := calculateAdvancedNodeScores b2 now avail in
    r = executeMigration cl now m /\ planned_ok b2 now sc (GetAggressivenessConfig (ab_config b2)) m.
Proof.
  intros Hin.
  destruct (Run_cases b cl now force) as [[Hr _]|[nodes [Hg [Hr _]]]];
    rewrite Hr in Hin; [destruct Hin|].
  unfold executeMigrations in Hin.
  apply in_map_iff in Hin. destruct Hin as [m [<- Hm]].
  exists nodes, m. split; [exact Hg|]. split; [reflexivity|].
  apply findOptimalMigrations_ok in Hm. exact Hm.
Qed.

(** A history entry younger than a day survives a cycle. *)
Lemma Run_keeps_entry (b : AdvancedBalancer) (cl : Client) (now : Z) (force : bool) h :
  In h (ab_migrationHistory b) -> (now - 86400 < h_Timestamp h)%Z ->
  In h (ab_migrationHistory (out_state (Run b cl now force))).
Proof.
  intros Hin Hts.
  destruct (Run_cases b cl now force) as [[_ [_ ->]]|[nodes [_ [_ [_ ->]]]]]; [exact Hin|].
  simpl. apply filter_In. split.
  - apply in_or_app. left.
    destruct (prepare_fields b cl (filterAvailableNodes b nodes)) as [_ [_ [_ ->]]].
    exact Hin.
  - apply Z.ltb_lt. lia.
Qed.

(** A history entry younger than an hour blocks every migration of its VM. *)
Lemma Run_blocked_by_entry (b : AdvancedBalancer) (cl : Client) (now : Z) (force : bool) h :
  In h (ab_migrationHistory b) -> (now - 3600 < h_Timestamp h)%Z ->
  ~ migrates_vm (Run b cl now force) (h_VMID h).
Proof.
  intros Hin Hts [r [Hr Hv]].
  apply Run_planned_result in Hr.
  destruct Hr as [nodes [m [_ [-> [Hok _]]]]].
  simpl in Hv. unfold canMigrateVM in Hok.
  apply andb_prop in Hok. destruct Hok as [Hok _].
  apply andb_prop in Hok. destruct Hok as [_ Hok].
  apply Bool.negb_true_iff in Hok.
  destruct (prepare_fields b cl (filterAvailableNodes b nodes)) as [_ [_ [_ Hh]]].
  rewrite Hh in Hok.
  assert (Hex : existsb (fun h0 => Z.eqb (h_VMID h0) (vm_ID (m_VM m))
                                   && (now - 3600 <? h_Timestamp h0)%Z)
                  (ab_migrationHistory b) = true).
  { apply existsb_exists. exists h. split; [exact Hin|].
    apply andb_true_intro. split; [apply Z.eqb_eq; congruence|apply Z.ltb_lt; exact Hts]. }
  congruence.
Qed.

Lemma trace_blocked_by_entry (b : AdvancedBalancer) h cycles :
  In h (ab_migrationHistory b) ->
  Forall (fun c => (h_Timestamp h < snd (fst c) < h_Timestamp h + 3600)%Z) cycles ->
  Forall (fun o => ~ migrates_vm o (h_VMID h)) (run_trace b cycles).
Proof.
  revert b; induction cycles as [|[[cl now] force] cycles IH]; intros b Hin Hc;
    [constructor|].
  inversion Hc as [|? ? Ht Hc']; subst. simpl in Ht. simpl. constructor.
  - apply Run_blocked_by_entry; [exact Hin|lia].
  - apply IH; [apply Run_keeps_entry; [exact Hin|lia]|exact Hc'].
Qed.

(** A successful result of a cycle at [now] is in the history afterwards,
    stamped [now]. *)
Lemma Run_records_success (b : AdvancedBalancer) (cl : Client) (now : Z) (force : bool) r :
  In r (out_results (Run b cl now force)) -> r_Success r = true ->
  exists h, In h (ab_migrationHistory (out_state (Run b cl now force))) /\
            h_VMID h = vm_ID (r_VM r) /\ h_Timestamp h = now.
Proof.
  intros Hin Hs.
  destruct (Run_cases b cl now force) as [[Hr _]|[nodes [_ [Hr [_ Hst]]]]];
    rewrite Hr in Hin; [destruct Hin|].
  rewrite Hst.
  assert (Ht : r_Timestamp r = now).
  { unfold executeMigrations in Hin. apply in_map_iff in Hin.
    destruct Hin as [m [<- _]]. reflexivity. }
  exists (mkHistory (vm_ID (r_VM r)) (r_SourceNode r) (r_TargetNode r) (r_Timestamp r)
                    (r_Reason r)).
  split; [|split; [reflexivity|exact Ht]].
  simpl. apply filter_In. split.
  - apply in_or_app. right. apply in_map_iff. exists r. split; [reflexivity|].
    apply filter_In. split; [exact Hin|exact Hs].
  - simpl. rewrite Ht. apply Z.ltb_lt. lia.
Qed.

Lemma alookup_aupdate {V} (k k' : string) (d : V) f m :
  alookup k' (aupdate k d f m) =
  if String.eqb k' k then Some (f (match alookup k m with Some v => v | None => d end))
  else alookup k' m.
Proof.
  induction m as [|[k0 v] m IH]; simpl.
  - destruct (String.eqb k' k); reflexivity.
  - destruct (String.eqb_spec k k0) as [<-|Hne]; simpl.
    + destruct (String.eqb k' k); reflexivity.
    + rewrite IH. destruct (String.eqb_spec k' k) as [->|]; [|reflexivity].
      apply String.eqb_neq in Hne. rewrite Hne. reflexivity.
Qed.

(** ** C3: monotone improvement *)

(** The total of the integer weights [int(w * 1000)] of [calculateResourceScore]. *)
Definition intWeightTotal (c : Config) : Z :=
  (go_int (cfg_WeightCPU c * 1000) + go_int (cfg_WeightMemory c * 1000)
   + go_int (cfg_WeightStorage c * 1000))%Z.

Lemma calculateResourceScore_finite (b : AdvancedBalancer) (n : Node) :
  intWeightTotal (ab_config b) <> 0%Z -> exists q, calculateResourceScore b n = FNum q.
Proof.
  intros Hw. unfold calculateResourceScore, intWeightTotal in *.
  match goal with |- exists q, match ?M with _ => _ end = _ => destruct M end.
  cbn [fdiv].
  match goal with |- context [Qeq_bool (inject_Z ?t) 0] =>
    destruct (Qeq_bool (inject_Z t) 0) eqn:E end.
  - apply Qeq_bool_iff in E. apply (proj1 (inject_Z_injective _ 0)) in E.
    exfalso. apply Hw. exact E.
  - eexists. reflexivity.
Qed.

Lemma advancedScore_finite (b : AdvancedBalancer) (now : Z) (n : Node) :
  intWeightTotal (ab_config b) <> 0%Z -> exists q, ns_Score (advancedScore b now n) = FNum q.
Proof.
  intros Hw. destruct (calculateResourceScore_finite b n Hw) as [q Hq].
  unfold advancedScore. cbn [ns_Score]. rewrite Hq. eexists. reflexivity.
Qed.




(** ** C4: cooldown *)

(** C4: (a) a cycle at [t'] never migrates a VM whose [LastMoved] time [t]
    satisfies [t < t' < t + 3600]; (b) once a successful migration of a VM
    is recorded by a cycle at time [t], no later cycle of that balancer at a
    time in [(t, t + 3600)] migrates that VM again, whatever the clients
    and force flags of those cycles. *)
Theorem advanced_cooldown_respected (v t : Z) :
  (forall b cl t' force r, In r (out_results (Run b cl t' force)) ->
     vm_ID (r_VM r) = v -> vm_LastMoved (r_VM r) = Some t -> ~ (t < t' < t + 3600)%Z) /\
  (forall b cl force r cycles, In r (out_results (Run b cl t force)) -> r_Success r = true ->
     vm_ID (r_VM r) = v ->
     Forall (fun c => (t < snd (fst c) < t + 3600)%Z) cycles ->
     Forall (fun o => ~ migrates_vm o v) (run_trace (out_state (Run b cl t force)) cycles)).
Proof.
  split.
  - intros b cl t' force r Hin _ Hlm Hw.
    destruct (Run_planned_result b cl t' force r Hin) as [nodes [m [_ [-> [Hok _]]]]].
    simpl in Hlm. unfold canMigrateVM in Hok. rewrite Hlm in Hok.
    assert (Hlt : (t' - 3600 <? t)%Z = true) by (apply Z.ltb_lt; lia).
    rewrite Hlt in Hok. discriminate.
  - intros b cl force r cycles Hin Hs Hv Hc.
    destruct (Run_records_success b cl t force r Hin Hs) as [h [Hh [Hid Hts]]].
    rewrite <- Hv, <- Hid. apply trace_blocked_by_entry; [exact Hh|].
    rewrite Hts. exact Hc.
Qed.

(** ** Instances of the theorems on concrete inputs *)



Lemma advanced_cooldown_respected_witness :
  let b := NewAdvancedBalancer defaultConfig in
  let cl := client_of [nodeA []; nodeB] in
  let r := mkResult "a" "b" (vm100 []) "load_balancing" (FNum 10) 1000000 true "" in
  let cycles := [(cl, 1000060%Z, true); (cl, 1003000%Z, true)] in
  In r (out_results (Run b cl 1000000 false)) /\ r_Success r = true /\
  Forall (fun o => ~ migrates_vm o 100) (run_trace (out_state (Run b cl 1000000 false)) cycles).
Proof.
  intros b cl r cycles.
  assert (Hin : In r (out_results (Run b cl 1000000 false))) by (vm_compute; left; reflexivity).
  split; [exact Hin|]. split; [reflexivity|].
  apply (proj2 (advanced_cooldown_respected 100 1000000) b cl false r cycles Hin);
    [reflexivity|reflexivity|].
  constructor; [simpl; lia|constructor; [simpl; lia|constructor]].
Defined.

Lemma advanced_no_trigger_no_migration_witness :
  let b := NewAdvancedBalancer defaultConfig in
  let cl := client_of [nodeB; mkNode "c" "online" 40 40 40 []] in
  (forall nodes, GetNodes cl = Some nodes ->
     forall n, In n (filterAvailableNodes b nodes) -> exceeds (ab_config b) n = false) /\
  out_results (Run b cl 1000000 false) = [] /\ out_calls (Run b cl 1000000 false) = [].
Proof.
  intros b cl.
  assert (Hcalm : forall nodes, GetNodes cl = Some nodes ->
            forall n, In n (filterAvailableNodes b nodes) -> exceeds (ab_config b) n = false).
  { intros nodes Hg n Hn. injection Hg as <-. vm_compute in Hn.
    destruct Hn as [<-|[<-|[]]]; vm_compute; reflexivity. }
  split; [exact Hcalm|].
  destruct (advanced_no_trigger_no_migration b cl 1000000 Hcalm) as [H1 [H2 _]].
  split; [exact H1|exact H2].
Defined.

Lemma calculatePercentiles_picks_rounded_index_witness :
  samples10 <> [] /\
  let s := sort_by Qltb samples10 in
  P90 (calculatePercentiles samples10) = nth (spec_percentile_index 10 (9 # 10)) s 0.
Proof.
  assert (Hne : samples10 <> []) by discriminate.
  split; [exact Hne|].
  exact (proj1 (proj2 (proj2 (calculatePercentiles_picks_rounded_index samples10 Hne)))).
Defined.

Lemma calculatePercentiles_ordered_witness :
  samples10 <> [] /\
  P99 (calculatePercentiles samples10) <= list_max samples10.
Proof.
  assert (Hne : samples10 <> []) by discriminate.
  split; [exact Hne|].
  exact (proj1 (proj2 (proj2 (proj2 (calculatePercentiles_ordered samples10 Hne))))).
Defined.

Lemma calculateMigrationCost_truncated_witness :
  let b := NewAdvancedBalancer defaultConfig in
  let sc := calculateAdvancedNodeScores b 0 [nodeA []; nodeB] in
  let s := nth 0 sc (mkScore "" (FNum 0) 0 0 0) in
  In s sc /\
  exists h, In h [nodeA []; nodeB] /\ ns_Node s = node_Name h /\
    ns_Score s = fadd (fadd (fadd (fmul (calculateResourceScore b h) (FNum (4 # 10)))
                                  (fmul (FNum (calculateStabilityScore b 0 h)) (FNum (2 # 10))))
                            (fmul (FNum (calculateCapacityScore b h)) (FNum (3 # 10))))
                      (fmul (FNum (calculateMigrationCost h)) (FNum (1 # 10))) /\
    (0 <= node_CPU h -> 0 <= node_Memory h ->
     calculateMigrationCost h ==
       inject_Z (Qfloor (node_CPU h) + Qfloor (node_Memory h)) / 200
       + (if ((80 <? Qfloor (node_CPU h)) || (80 <? Qfloor (node_Memory h)))%Z then 10 else 0)).
Proof.
  intros b sc s.
  assert (Hs : In s sc) by (vm_compute; left; reflexivity).
  split; [exact Hs|].
  exact (calculateMigrationCost_truncated b 0 [nodeA []; nodeB] s Hs).
Defined.

Lemma validatePlacement_affinity_single_group_witness :
  let e := ProcessVMs NewEngine web_vms in
  let vm := tagged_vm 3 "web3" "a" ["plb_affinity_web"] in
  let grp := mkGroup "web" web_vms ["a"; "b"] in
  other_on vm "b" grp /\ ValidatePlacement e vm "b" = validateAntiAffinityRules e vm "b".
Proof.
  intros e vm grp.
  assert (Hon : other_on vm "b" grp).
  { exists (tagged_vm 2 "web2" "b" ["plb_affinity_web"]).
    split; [simpl; auto|split; [discriminate|reflexivity]]. }
  split; [exact Hon|].
  assert (Hm : same_maps (ProcessVMs NewEngine web_vms) e)
    by (split; [apply Permutation_refl|split; [apply Permutation_refl|split; reflexivity]]).
  assert (Hin : In ("web", grp) (affinityGroups (ProcessVMs NewEngine web_vms)))
    by (vm_compute; left; reflexivity).
  assert (Hmem : findVMInGroup (vm_ID vm) grp <> None) by (vm_compute; discriminate).
  assert (Honly : forall p, In p (affinityGroups (ProcessVMs NewEngine web_vms)) ->
                  findVMInGroup (vm_ID vm) (snd p) <> None -> p = ("web", grp)).
  { intros p Hp _. vm_compute in Hp. destruct Hp as [<-|[]]. reflexivity. }
  assert (Hign : validateIgnoreRules e vm = None) by (vm_compute; reflexivity).
  assert (Hpin : validatePinningRules e vm "b" = None) by (vm_compute; reflexivity).
  exact (proj1 (validatePlacement_affinity_single_group web_vms e vm "b" "web" grp
                  Hm Hin Hmem Honly Hign Hpin) Hon).
Defined.

Lemma run_insufficient_nodes_witness :
  let nodes := [nodeA []; nodeB_offline] in
  let cl := client_of nodes in
  let b := NewAdvancedBalancer defaultConfig in
  GetNodes cl = Some nodes /\ (List.length (filterAvailableNodes b nodes) < 2)%nat /\
  out_err (Run b cl 0 false) <> None /\ out_state (Run b cl 0 false) = b.
Proof.
  intros nodes cl b.
  assert (Hg : GetNodes cl = Some nodes) by reflexivity.
  assert (Hlt : (List.length (filterAvailableNodes b nodes) < 2)%nat)
    by (apply Nat.ltb_lt; vm_compute; reflexivity).
  split; [exact Hg|]. split; [exact Hlt|].
  destruct (proj1 (run_insufficient_nodes cl nodes 0 false Hg) b Hlt) as [He [_ [_ Hs]]].
  split; [exact He|exact Hs].
Defined.

(** * Further properties *)

(** ** Rule engine: what [ProcessVMs] builds *)

Section EngineFacts.

Lemma prefix_app (p s : string) : String.prefix p s = true -> exists r, s = (p ++ r)%string.
Proof.
  revert s; induction p as [|c p IH]; intros s H; [exists s; reflexivity|].
  destruct s as [|c' s]; [discriminate|]. simpl in H.
  destruct (ascii_dec c c') as [<-|]; [|discriminate].
  destruct (IH s H) as [r ->]. exists r. reflexivity.
Qed.

(** The four rule prefixes exclude one another. *)
Lemma prefixes_exclusive (s : string) :
  (HasPrefix s "plb_affinity_" = true -> HasPrefix s "plb_anti_affinity_" = false) /\
  (HasPrefix s "plb_anti_affinity_" = true -> HasPrefix s "plb_affinity_" = false) /\
  (HasPrefix s "plb_pin_" = true ->
     HasPrefix s "plb_affinity_" = false /\ HasPrefix s "plb_anti_affinity_" = false) /\
  (HasPrefix s "plb_ignore_" = true ->
     HasPrefix s "plb_affinity_" = false /\ HasPrefix s "plb_anti_affinity_" = false /\
     HasPrefix s "plb_pin_" = false).
Proof.
  unfold HasPrefix.
  split; [|split; [|split]]; intros Hs; destruct (prefix_app _ _ Hs) as [r ->];
    repeat split; reflexivity.
Qed.

Lemma ProcessVMs_vm_tags (e : Engine) (vms : list VM) :
  ProcessVMs e vms = fold_left tag_step (vm_tags vms) NewEngine.
Proof.
  unfold ProcessVMs, vm_tags. generalize NewEngine.
  induction vms as [|vm vms IH]; intros e0; [reflexivity|].
  simpl. rewrite fold_left_app.
  assert (Hm : forall l e1, fold_left tag_step (map (fun t => (vm, t)) l) e1
                            = fold_left (processTag vm) l e1)
    by (induction l as [|t l IHl]; intros e1; [reflexivity|apply IHl]).
  rewrite Hm. apply IH.
Qed.

Lemma processTag_maps (vm : VM) (e : Engine) (t : string) :
  affinityGroups (processTag vm e t) =
    (if tag_has "plb_affinity_" t
     then aupdate (tag_arg "plb_affinity_" t) (mkGroup (tag_arg "plb_affinity_" t) [] [])
            (add_to_group vm) (affinityGroups e)
     else affinityGroups e) /\
  antiAffinityGroups (processTag vm e t) =
    (if tag_has "plb_anti_affinity_" t
     then aupdate (tag_arg "plb_anti_affinity_" t)
            (mkGroup (tag_arg "plb_anti_affinity_" t) [] [])
            (add_to_group vm) (antiAffinityGroups e)
     else antiAffinityGroups e) /\
  pinnedVMs (processTag vm e t) =
    (if tag_has "plb_pin_" t
     then zupdate (vm_ID vm) (mkPinned vm [])
            (fun p => if existsb (String.eqb (tag_arg "plb_pin_" t)) (p_Nodes p) then p
                      else mkPinned (p_VM p) (p_Nodes p ++ [tag_arg "plb_pin_" t]))
            (pinnedVMs e)
     else pinnedVMs e) /\
  ignoredVMs (processTag vm e t) =
    (if tag_has "plb_ignore_" t
     then zupdate (vm_ID vm) (mkIgnored vm [])
            (fun i => mkIgnored (i_VM i) (i_Tags i ++ [tag_arg "plb_ignore_" t]))
            (ignoredVMs e)
     else ignoredVMs e).
Proof.
  unfold processTag, tag_has, tag_arg.
  destruct (prefixes_exclusive (TrimSpace t)) as [E1 [E2 [E3 E4]]].
  destruct (HasPrefix (TrimSpace t) "plb_affinity_") eqn:Ha.
  { rewrite (E1 eq_refl).
    destruct (HasPrefix (TrimSpace t) "plb_pin_") eqn:Hp;
      [destruct (E3 eq_refl); congruence|].
    destruct (HasPrefix (TrimSpace t) "plb_ignore_") eqn:Hi;
      [destruct (E4 eq_refl); congruence|].
    repeat split; reflexivity. }
  destruct (HasPrefix (TrimSpace t) "plb_anti_affinity_") eqn:Hb.
  { destruct (HasPrefix (TrimSpace t) "plb_pin_") eqn:Hp;
      [destruct (E3 eq_refl); congruence|].
    destruct (HasPrefix (TrimSpace t) "plb_ignore_") eqn:Hi;
      [destruct (E4 eq_refl) as [_ [? _]]; congruence|].
    repeat split; reflexivity. }
  destruct (HasPrefix (TrimSpace t) "plb_pin_") eqn:Hp.
  { destruct (HasPrefix (TrimSpace t) "plb_ignore_") eqn:Hi;
      [destruct (E4 eq_refl) as [_ [_ ?]]; congruence|].
    repeat split; reflexivity. }
  destruct (HasPrefix (TrimSpace t) "plb_ignore_"); repeat split; reflexivity.
Qed.

(** *** Association-list maps *)

Lemma map_fst_aupdate {V} (k : string) (d : V) f m :
  map fst (aupdate k d f m) = addNodeToGroup k (map fst m).
Proof.
  unfold addNodeToGroup.
  induction m as [|[k0 v] m IH]; simpl; [reflexivity|].
  destruct (String.eqb k k0); simpl; [reflexivity|].
  rewrite IH. destruct (existsb _ _); reflexivity.
Qed.

Lemma zlookup_zupdate {V} (k k' : Z) (d : V) f m :
  zlookup k' (zupdate k d f m) =
  if Z.eqb k' k then Some (f (match zlookup k m with Some v => v | None => d end))
  else zlookup k' m.
Proof.
  induction m as [|[k0 v] m IH]; simpl.
  - destruct (Z.eqb k' k); reflexivity.
  - destruct (Z.eqb_spec k k0) as [<-|Hne]; simpl.
    + destruct (Z.eqb k' k); reflexivity.
    + rewrite IH. destruct (Z.eqb_spec k' k) as [->|]; [|reflexivity].
      apply Z.eqb_neq in Hne. rewrite Hne. reflexivity.
Qed.

Lemma alookup_In {V} (k : string) (v : V) m : alookup k m = Some v -> In (k, v) m.
Proof.
  induction m as [|[k0 v0] m IH]; simpl; [discriminate|].
  destruct (String.eqb_spec k k0) as [->|]; [intros H; injection H as ->; now left|].
  intros H; right; auto.
Qed.

Lemma In_alookup {V} (k : string) (v : V) m :
  NoDup (map fst m) -> In (k, v) m -> alookup k m = Some v.
Proof.
  induction m as [|[k0 v0] m IH]; simpl; [contradiction|].
  intros Hnd [Heq|Hin]; inversion Hnd as [|? ? Hnot Hnd']; subst.
  - injection Heq as -> ->. rewrite String.eqb_refl. reflexivity.
  - destruct (String.eqb_spec k k0) as [->|]; [|auto].
    exfalso. apply Hnot. apply (in_map fst) in Hin. exact Hin.
Qed.

(** *** [addNodeToGroup] and [dedup] *)

Lemma In_addNodeToGroup (x n : string) (l : list string) :
  In n (addNodeToGroup x l) <-> n = x \/ In n l.
Proof.
  unfold addNodeToGroup. destruct (existsb (String.eqb x) l) eqn:E.
  - apply existsb_exists in E. destruct E as [y [Hy Heq]]. apply String.eqb_eq in Heq.
    subst. split; [auto|]. intros [->|H]; auto.
  - rewrite in_app_iff. simpl. split; intros [H|H]; auto; destruct H; auto; contradiction.
Qed.

Lemma NoDup_addNodeToGroup (x : string) (l : list string) :
  NoDup l -> NoDup (addNodeToGroup x l).
Proof.
  intros Hnd. unfold addNodeToGroup. destruct (existsb (String.eqb x) l) eqn:E; [exact Hnd|].
  apply NoDup_app; [exact Hnd|constructor; [intros []|constructor]|].
  intros y Hy [<-|[]]. apply not_true_iff_false in E. apply E.
  apply existsb_exists. exists x. split; [exact Hy|apply String.eqb_refl].
Qed.

Lemma dedup_app (l : list string) (x : string) :
  dedup (l ++ [x]) = addNodeToGroup x (dedup l).
Proof. unfold dedup. rewrite fold_left_app. reflexivity. Qed.

Lemma dedup_spec (l : list string) :
  NoDup (dedup l) /\ forall n, In n (dedup l) <-> In n l.
Proof.
  induction l as [|x l IH] using rev_ind.
  - split; [constructor|simpl; tauto].
  - destruct IH as [Hnd Hin]. rewrite dedup_app. split.
    + apply NoDup_addNodeToGroup, Hnd.
    + intros n. rewrite In_addNodeToGroup, Hin, in_app_iff. simpl.
      split; intros [H|H]; auto; destruct H; auto; contradiction.
Qed.

(** *** Groups *)

Variable p : string.
Variable proj : Engine -> list (string * Group).
Hypothesis proj_new : proj NewEngine = [].
Hypothesis proj_step : forall e vt,
  proj (tag_step e vt) =
  if tag_has p (snd vt)
  then aupdate (tag_arg p (snd vt)) (mkGroup (tag_arg p (snd vt)) [] []) (add_to_group (fst vt))
         (proj e)
  else proj e.

Lemma group_map_spec (ps : list (VM * string)) :
  map fst (proj (fold_left tag_step ps NewEngine)) =
    dedup (map (fun vt => tag_arg p (snd vt)) (filter (fun vt => tag_has p (snd vt)) ps)) /\
  forall k, alookup k (proj (fold_left tag_step ps NewEngine)) =
    match members_of p k ps with
    | [] => None
    | ms => Some (mkGroup k ms (dedup (map vm_Node ms)))
    end.
Proof.
  induction ps as [|vt ps IH] using rev_ind.
  - simpl. rewrite proj_new. split; reflexivity.
  - destruct IH as [Hkeys Hlook].
    unfold members_of in *. rewrite fold_left_app. simpl. rewrite proj_step.
    rewrite !filter_app. simpl.
    destruct (tag_has p (snd vt)) eqn:Ht; simpl.
    + split.
      * rewrite map_fst_aupdate, Hkeys, map_app. simpl. rewrite dedup_app. reflexivity.
      * intros k. rewrite alookup_aupdate, Hlook, filter_app, map_app. simpl. rewrite Ht.
        simpl.
        destruct (String.eqb_spec k (tag_arg p (snd vt))) as [->|Hne].
        -- rewrite String.eqb_refl. simpl.
           destruct (map fst (filter _ ps)) as [|m ms]; simpl; [reflexivity|].
           replace (vm_Node m :: map vm_Node (ms ++ [fst vt]))
             with ((vm_Node m :: map vm_Node ms) ++ [vm_Node (fst vt)])
             by (rewrite map_app; reflexivity).
           rewrite dedup_app. reflexivity.
        -- rewrite (proj2 (String.eqb_neq _ _) (not_eq_sym Hne)), app_nil_r.
           rewrite Hlook. reflexivity.
    + rewrite !app_nil_r. split; [exact Hkeys|].
      intros k. rewrite filter_app. simpl. rewrite Ht. simpl. rewrite app_nil_r.
      apply Hlook.
Qed.

End EngineFacts.

(** *** The group maps, the ignore map and the pin map of [ProcessVMs] *)

Lemma group_map_ProcessVMs (p : string) (proj : Engine -> list (string * Group))
  (Hnew : proj NewEngine = [])
  (Hstep : forall e vt, proj (tag_step e vt) =
     if tag_has p (snd vt)
     then aupdate (tag_arg p (snd vt)) (mkGroup (tag_arg p (snd vt)) [] [])
            (add_to_group (fst vt)) (proj e)
     else proj e)
  (e : Engine) (vms : list VM) :
  NoDup (map fst (proj (ProcessVMs e vms))) /\
  forall k, alookup k (proj (ProcessVMs e vms)) = group_of p k vms.
Proof.
  rewrite ProcessVMs_vm_tags.
  destruct (group_map_spec p proj Hnew Hstep (vm_tags vms)) as [Hk Hl].
  split.
  - rewrite Hk. apply dedup_spec.
  - intros k. rewrite Hl. reflexivity.
Qed.

Lemma group_of_nodes (p k : string) (vms : list VM) (g : Group) :
  group_of p k vms = Some g ->
  g_Tag g = k /\ g_VMs g = group_members p k vms /\ g_VMs g <> [] /\
  NoDup (g_Nodes g) /\
  forall n, In n (g_Nodes g) <-> exists v, In v (g_VMs g) /\ vm_Node v = n.
Proof.
  unfold group_of. destruct (group_members p k vms) as [|m ms] eqn:E; [discriminate|].
  intros H. injection H as <-. simpl.
  destruct (dedup_spec (vm_Node m :: map vm_Node ms)) as [Hnd Hin].
  split; [reflexivity|split; [reflexivity|split; [discriminate|split; [exact Hnd|]]]].
  intros n. rewrite Hin. change (vm_Node m :: map vm_Node ms) with (map vm_Node (m :: ms)).
  rewrite in_map_iff. split; intros [v [H1 H2]]; exists v; auto.
Qed.

Lemma ignored_fold (ps : list (VM * string)) (id : Z) :
  IsIgnored (fold_left tag_step ps NewEngine) id =
  existsb (fun vt => Z.eqb id (vm_ID (fst vt)) && tag_has "plb_ignore_" (snd vt)) ps.
Proof.
  induction ps as [|vt ps IH] using rev_ind; [reflexivity|].
  rewrite fold_left_app, existsb_app, <- IH. cbn [fold_left existsb].
  unfold IsIgnored. change (tag_step ?e vt) with (processTag (fst vt) e (snd vt)).
  destruct (processTag_maps (fst vt) (fold_left tag_step ps NewEngine) (snd vt))
    as [_ [_ [_ ->]]].
  destruct (tag_has "plb_ignore_" (snd vt)); rewrite ?andb_true_r, ?andb_false_r, ?orb_false_r;
    [|reflexivity].
  rewrite zlookup_zupdate. destruct (Z.eqb id (vm_ID (fst vt))); simpl.
  - destruct (zlookup id _); reflexivity.
  - rewrite orb_false_r. reflexivity.
Qed.

Lemma p_Nodes_pin_update (nodeName : string) (x : PinnedVM) :
  p_Nodes (if existsb (String.eqb nodeName) (p_Nodes x) then x
           else mkPinned (p_VM x) (p_Nodes x ++ [nodeName])) =
  addNodeToGroup nodeName (p_Nodes x).
Proof. unfold addNodeToGroup. destruct (existsb _ _); reflexivity. Qed.

Lemma pinned_fold (ps : list (VM * string)) (id : Z) :
  option_map p_Nodes (zlookup id (pinnedVMs (fold_left tag_step ps NewEngine))) =
  match map (fun vt => tag_arg "plb_pin_" (snd vt))
          (filter (fun vt => Z.eqb id (vm_ID (fst vt)) && tag_has "plb_pin_" (snd vt)) ps) with
  | [] => None
  | l => Some (dedup l)
  end.
Proof.
  induction ps as [|vt ps IH] using rev_ind; [reflexivity|].
  rewrite fold_left_app, filter_app, map_app. cbn [fold_left filter].
  change (tag_step ?e vt) with (processTag (fst vt) e (snd vt)).
  destruct (processTag_maps (fst vt) (fold_left tag_step ps NewEngine) (snd vt))
    as [_ [_ [-> _]]].
  destruct (tag_has "plb_pin_" (snd vt)); rewrite ?andb_true_r, ?andb_false_r.
  - rewrite zlookup_zupdate. destruct (Z.eqb_spec id (vm_ID (fst vt))) as [<-|Hne].
    + simpl. rewrite p_Nodes_pin_update.
      destruct (zlookup id (pinnedVMs (fold_left tag_step ps NewEngine))) as [x|];
        simpl in IH;
        destruct (map _ (filter _ ps)) as [|a l]; try discriminate; simpl.
      * injection IH as ->. rewrite <- dedup_app. reflexivity.
      * reflexivity.
    + simpl. rewrite app_nil_r. exact IH.
  - simpl. rewrite app_nil_r. exact IH.
Qed.

(** *** Placement checks *)

Lemma ValidatePlacement_None (e : Engine) (vm : VM) (t : string) :
  ValidatePlacement e vm t = None ->
  validateIgnoreRules e vm = None /\ validatePinningRules e vm t = None /\
  validateAffinityRules e vm t = None /\ validateAntiAffinityRules e vm t = None.
Proof.
  unfold ValidatePlacement.
  destruct (validateIgnoreRules e vm); [discriminate|].
  destruct (validatePinningRules e vm t); [discriminate|].
  destruct (validateAffinityRules e vm t); [discriminate|]. auto.
Qed.

Lemma In_GetValidTargetNodes (e : Engine) (vm : VM) (nodes : list string) (n : string) :
  In n (GetValidTargetNodes e vm nodes) <-> In n nodes /\ ValidatePlacement e vm n = None.
Proof.
  unfold GetValidTargetNodes. rewrite filter_In.
  destruct (ValidatePlacement e vm n); split; intros [H1 H2]; try discriminate; auto.
Qed.

(** [same_maps] leaves the lookups of the pin and ignore maps alone. *)
Lemma same_maps_lookups (e e' : Engine) (id : Z) :
  same_maps e e' ->
  IsIgnored e' id = IsIgnored e id /\ IsPinned e' id = IsPinned e id /\
  GetPinnedNodes e' id = GetPinnedNodes e id.
Proof.
  intros [_ [_ [Hp Hi]]]. unfold IsIgnored, IsPinned, GetPinnedNodes. rewrite Hp, Hi. auto.
Qed.

Lemma In_vm_tags (vms : list VM) (vt : VM * string) :
  In vt (vm_tags vms) <-> In (fst vt) vms /\ In (snd vt) (vm_Tags (fst vt)).
Proof.
  destruct vt as [v t]. unfold vm_tags. rewrite in_flat_map. simpl. split.
  - intros [v' [Hv Hin]]. apply in_map_iff in Hin. destruct Hin as [t' [Heq Ht]].
    injection Heq as -> ->. auto.
  - intros [Hv Ht]. exists v. split; [exact Hv|]. apply in_map_iff. exists t. auto.
Qed.

Lemma In_group_members (p k : string) (vms : list VM) (v : VM) :
  In v (group_members p k vms) ->
  exists t, In v vms /\ In t (vm_Tags v) /\ tag_has p t = true /\ tag_arg p t = k.
Proof.
  unfold group_members. rewrite in_map_iff. intros [[v' t] [Heq Hin]]. simpl in Heq. subst v'.
  apply filter_In in Hin. destruct Hin as [Hin Hb]. apply In_vm_tags in Hin.
  simpl in Hin, Hb. apply andb_prop in Hb. destruct Hb as [H1 H2].
  exists t. repeat split; try tauto. apply String.eqb_eq, H2.
Qed.

Lemma affinity_ProcessVMs (e : Engine) (vms : list VM) :
  NoDup (map fst (affinityGroups (ProcessVMs e vms))) /\
  forall k, alookup k (affinityGroups (ProcessVMs e vms)) = group_of "plb_affinity_" k vms.
Proof.
  apply group_map_ProcessVMs; [reflexivity|].
  intros e0 vt. exact (proj1 (processTag_maps (fst vt) e0 (snd vt))).
Qed.

Lemma anti_affinity_ProcessVMs (e : Engine) (vms : list VM) :
  NoDup (map fst (antiAffinityGroups (ProcessVMs e vms))) /\
  forall k, alookup k (antiAffinityGroups (ProcessVMs e vms))
            = group_of "plb_anti_affinity_" k vms.
Proof.
  apply group_map_ProcessVMs; [reflexivity|].
  intros e0 vt. exact (proj1 (proj2 (processTag_maps (fst vt) e0 (snd vt)))).
Qed.

Lemma ignore_ProcessVMs (e : Engine) (vms : list VM) (id : Z) :
  IsIgnored (ProcessVMs e vms) id = ignore_tagged vms id.
Proof. rewrite ProcessVMs_vm_tags. apply ignored_fold. Qed.

Lemma pin_ProcessVMs (e : Engine) (vms : list VM) (id : Z) :
  GetPinnedNodes (ProcessVMs e vms) id = dedup (pin_targets vms id) /\
  (IsPinned (ProcessVMs e vms) id = true <-> pin_targets vms id <> []).
Proof.
  pose proof (pinned_fold (vm_tags vms) id) as H.
  rewrite <- (ProcessVMs_vm_tags e vms) in H.
  unfold GetPinnedNodes, IsPinned, pin_targets.
  destruct (zlookup id (pinnedVMs (ProcessVMs e vms))) as [x|]; simpl in H;
    destruct (map _ (filter _ (vm_tags vms))) as [|a l]; try discriminate.
  - injection H as ->. split; [reflexivity|split; [discriminate|reflexivity]].
  - split; [reflexivity|split; [discriminate|intros C; contradiction C; reflexivity]].
Qed.

(** A key of a group map of [ProcessVMs] names the group [group_of] builds. *)
Lemma group_in_map (p : string) (gs : list (string * Group)) (vms : list VM) k g :
  NoDup (map fst gs) -> (forall k, alookup k gs = group_of p k vms) ->
  In (k, g) gs -> group_of p k vms = Some g.
Proof. intros Hnd Hl Hin. rewrite <- Hl. apply In_alookup; assumption. Qed.

Lemma firstGroupCheck_none check vm t (gs : list (string * Group)) :
  (forall p, In p gs -> findVMInGroup (vm_ID vm) (snd p) = None) ->
  firstGroupCheck check vm t gs = None.
Proof.
  induction gs as [|[g grp] gs IH]; intros H; [reflexivity|]. simpl.
  rewrite (H (g, grp) (or_introl eq_refl) : findVMInGroup (vm_ID vm) grp = None). apply IH. intros p Hp. apply H. now right.
Qed.

(** A VM whose ID no tagged VM carries is in no group of [ProcessVMs]. *)
Lemma untagged_not_in_groups (p : string) (gs : list (string * Group)) (vms : list VM) vm :
  NoDup (map fst gs) -> (forall k, alookup k gs = group_of p k vms) ->
  (forall v, In v vms -> vm_ID v = vm_ID vm -> vm_Tags v = []) ->
  forall q, In q gs -> findVMInGroup (vm_ID vm) (snd q) = None.
Proof.
  intros Hnd Hl Hnt [k g] Hin. simpl.
  pose proof (group_in_map p gs vms k g Hnd Hl Hin) as Eg.
  destruct (group_of_nodes _ _ _ _ Eg) as [_ [Hvms _]].
  unfold findVMInGroup. destruct (find _ (g_VMs g)) as [v|] eqn:Ef; [|reflexivity].
  apply find_some in Ef. destruct Ef as [Hv Hid]. apply Z.eqb_eq in Hid.
  rewrite Hvms in Hv. destruct (In_group_members _ _ _ _ Hv) as [t [Hv' [Ht _]]].
  rewrite (Hnt v Hv' Hid) in Ht. destruct Ht.
Qed.

Lemma filter_all_true {A} (f : A -> bool) (l : list A) :
  (forall x, In x l -> f x = true) -> filter f l = l.
Proof.
  induction l as [|x l IH]; intros H; [reflexivity|]. simpl.
  rewrite (H x (or_introl eq_refl)), IH; [reflexivity|]. intros y Hy. apply H. now right.
Qed.

(** *** Properties of [ProcessVMs] and [GetValidTargetNodes] *)

(** The affinity map of [ProcessVMs] has one entry per group name that a
    trimmed [plb_affinity_] tag declares; the entry of [k] lists, in visit
    order, the VM of every tag naming [k], and the distinct hosts of those
    VMs.  The engine passed in is discarded. *)
Theorem ProcessVMs_affinityGroups (e : Engine) (vms : list VM) :
  NoDup (map fst (affinityGroups (ProcessVMs e vms))) /\
  forall k, alookup k (affinityGroups (ProcessVMs e vms)) = group_of "plb_affinity_" k vms.
Proof. exact (affinity_ProcessVMs e vms). Qed.

(** The same for the anti-affinity map and the [plb_anti_affinity_] tags. *)
Theorem ProcessVMs_antiAffinityGroups (e : Engine) (vms : list VM) :
  NoDup (map fst (antiAffinityGroups (ProcessVMs e vms))) /\
  forall k, alookup k (antiAffinityGroups (ProcessVMs e vms))
            = group_of "plb_anti_affinity_" k vms.
Proof. exact (anti_affinity_ProcessVMs e vms). Qed.

(** Every group [ProcessVMs] stores is tagged with its key, is not empty,
    and its node list holds, without repetition, exactly the hosts of its VMs. *)
Theorem ProcessVMs_group_nodes (e : Engine) (vms : list VM) (k : string) (g : Group)
  (Hg : alookup k (affinityGroups (ProcessVMs e vms)) = Some g \/
        alookup k (antiAffinityGroups (ProcessVMs e vms)) = Some g) :
  g_Tag g = k /\ g_VMs g <> [] /\ NoDup (g_Nodes g) /\
  forall n, In n (g_Nodes g) <-> exists v, In v (g_VMs g) /\ vm_Node v = n.
Proof.
  destruct Hg as [Hg|Hg].
  - rewrite (proj2 (affinity_ProcessVMs e vms)) in Hg.
    destruct (group_of_nodes _ _ _ _ Hg) as [H1 [_ H2]]. auto.
  - rewrite (proj2 (anti_affinity_ProcessVMs e vms)) in Hg.
    destruct (group_of_nodes _ _ _ _ Hg) as [H1 [_ H2]]. auto.
Qed.

(** After [ProcessVMs], a VM ID is ignored exactly when some VM with that ID
    has a tag that, trimmed, starts with [plb_ignore_]. *)
Theorem ProcessVMs_IsIgnored (e : Engine) (vms : list VM) (id : Z) :
  IsIgnored (ProcessVMs e vms) id = ignore_tagged vms id.
Proof. exact (ignore_ProcessVMs e vms id). Qed.

(** After [ProcessVMs], the pinned nodes of an ID are the [plb_pin_] targets
    of its VMs' tags in tag order, repeats dropped; the ID is pinned exactly
    when there is at least one such tag. *)
Theorem ProcessVMs_pins (e : Engine) (vms : list VM) (id : Z) :
  GetPinnedNodes (ProcessVMs e vms) id = dedup (pin_targets vms id) /\
  (IsPinned (ProcessVMs e vms) id = true <-> pin_targets vms id <> []).
Proof. exact (pin_ProcessVMs e vms id). Qed.

(** For the engine of [ProcessVMs], in any map iteration order: an ignored
    VM has no valid target; every valid target is one of the offered nodes
    and, when the VM is pinned, one of its pin targets. *)
Theorem GetValidTargetNodes_ignore_pin (e e' : Engine) (vms : list VM) (vm : VM)
  (nodes : list string) (Hm : same_maps (ProcessVMs e vms) e') :
  (ignore_tagged vms (vm_ID vm) = true -> GetValidTargetNodes e' vm nodes = []) /\
  forall n, In n (GetValidTargetNodes e' vm nodes) ->
    In n nodes /\ (pin_targets vms (vm_ID vm) <> [] -> In n (pin_targets vms (vm_ID vm))).
Proof.
  destruct (same_maps_lookups _ _ (vm_ID vm) Hm) as [Hi [Hp Hn]].
  rewrite ignore_ProcessVMs in Hi.
  destruct (pin_ProcessVMs e vms (vm_ID vm)) as [Hnodes Hpin].
  split.
  - intros Hig. destruct (GetValidTargetNodes e' vm nodes) as [|n l] eqn:E; [reflexivity|].
    assert (Hin : In n (GetValidTargetNodes e' vm nodes)) by (rewrite E; left; reflexivity).
    apply In_GetValidTargetNodes in Hin. destruct Hin as [_ Hv].
    destruct (ValidatePlacement_None _ _ _ Hv) as [Hvi _].
    unfold validateIgnoreRules in Hvi. rewrite Hi, Hig in Hvi. discriminate.
  - intros n Hin. apply In_GetValidTargetNodes in Hin. destruct Hin as [Hin Hv].
    split; [exact Hin|]. intros Hne.
    destruct (ValidatePlacement_None _ _ _ Hv) as [_ [Hvp _]].
    unfold validatePinningRules in Hvp. rewrite Hp, (proj2 Hpin Hne) in Hvp. simpl in Hvp.
    rewrite Hn, Hnodes in Hvp.
    destruct (existsb (String.eqb n) (dedup (pin_targets vms (vm_ID vm)))) eqn:Ex;
      [|discriminate].
    apply existsb_exists in Ex. destruct Ex as [x [Hx Heq]]. apply String.eqb_eq in Heq.
    subst x. apply (proj2 (dedup_spec _)), Hx.
Qed.

(** For the engine of [ProcessVMs], in any map iteration order: a VM whose
    ID no VM with tags carries is unconstrained; every offered node is valid. *)
Theorem GetValidTargetNodes_untagged (e e' : Engine) (vms : list VM) (vm : VM)
  (nodes : list string) (Hm : same_maps (ProcessVMs e vms) e')
  (Hnt : forall v, In v vms -> vm_ID v = vm_ID vm -> vm_Tags v = []) :
  GetValidTargetNodes e' vm nodes = nodes.
Proof.
  destruct (same_maps_lookups _ _ (vm_ID vm) Hm) as [Hi [Hp _]].
  rewrite ignore_ProcessVMs in Hi.
  destruct (pin_ProcessVMs e vms (vm_ID vm)) as [_ Hpin].
  destruct (affinity_ProcessVMs e vms) as [Hnd1 Hl1].
  destruct (anti_affinity_ProcessVMs e vms) as [Hnd2 Hl2].
  destruct Hm as [Hperm1 [Hperm2 _]].
  assert (Hig : ignore_tagged vms (vm_ID vm) = false).
  { apply not_true_iff_false. unfold ignore_tagged. rewrite existsb_exists.
    intros [vt [Hvt Hb]]. apply andb_prop in Hb. destruct Hb as [Hid _].
    apply Z.eqb_eq in Hid. apply In_vm_tags in Hvt. destruct Hvt as [Hv Ht].
    rewrite (Hnt _ Hv (eq_sym Hid)) in Ht. destruct Ht. }
  assert (Hnp : IsPinned (ProcessVMs e vms) (vm_ID vm) = false).
  { apply not_true_iff_false. rewrite Hpin. intros C. apply C.
    unfold pin_targets. destruct (filter _ (vm_tags vms)) as [|vt l] eqn:E; [reflexivity|].
    exfalso. assert (Hvt : In vt (filter (fun vt => ((vm_ID vm =? vm_ID (fst vt))%Z
                      && tag_has "plb_pin_" (snd vt))) (vm_tags vms)))
      by (rewrite E; left; reflexivity).
    apply filter_In in Hvt. destruct Hvt as [Hvt Hb]. apply andb_prop in Hb.
    destruct Hb as [Hid _]. apply Z.eqb_eq in Hid. apply In_vm_tags in Hvt.
    destruct Hvt as [Hv Ht]. rewrite (Hnt _ Hv (eq_sym Hid)) in Ht. destruct Ht. }
  unfold GetValidTargetNodes. apply filter_all_true. intros n _.
  unfold ValidatePlacement, validateIgnoreRules, validatePinningRules,
    validateAffinityRules, validateAntiAffinityRules.
  rewrite Hi, Hig, Hp, Hnp. simpl.
  rewrite !firstGroupCheck_none; [reflexivity| |].
  - intros q Hq. apply (untagged_not_in_groups "plb_anti_affinity_" _ vms vm Hnd2 Hl2 Hnt).
    exact (Permutation_in _ (Permutation_sym Hperm2) Hq).
  - intros q Hq. apply (untagged_not_in_groups "plb_affinity_" _ vms vm Hnd1 Hl1 Hnt).
    exact (Permutation_in _ (Permutation_sym Hperm1) Hq).
Qed.

(** For the engine of [ProcessVMs], in any map iteration order: when [k] is
    the only anti-affinity group holding the VM's ID, no valid target hosts
    another member of [k]. *)
Theorem GetValidTargetNodes_anti_affinity (e e' : Engine) (vms : list VM) (vm : VM)
  (k : string) (nodes : list string) (Hm : same_maps (ProcessVMs e vms) e')
  (Hk : exists v, In v (group_members "plb_anti_affinity_" k vms) /\ vm_ID v = vm_ID vm)
  (Honly : forall k' v, In v (group_members "plb_anti_affinity_" k' vms) ->
                        vm_ID v = vm_ID vm -> k' = k) :
  forall n, In n (GetValidTargetNodes e' vm nodes) ->
  forall o, In o (group_members "plb_anti_affinity_" k vms) -> vm_ID o <> vm_ID vm ->
  vm_Node o <> n.
Proof.
  intros n Hn o Ho Hid Hon.
  apply In_GetValidTargetNodes in Hn. destruct Hn as [_ Hv].
  destruct (ValidatePlacement_None _ _ _ Hv) as [_ [_ [_ Ha]]].
  destruct (anti_affinity_ProcessVMs e vms) as [Hnd Hl].
  destruct Hm as [_ [Hperm _]].
  destruct (group_of "plb_anti_affinity_" k vms) as [g|] eqn:Eg.
  2: { unfold group_of in Eg. destruct (group_members _ k vms); [destruct Ho|discriminate]. }
  destruct (group_of_nodes _ _ _ _ Eg) as [_ [Hvms _]].
  assert (Hin : In (k, g) (antiAffinityGroups (ProcessVMs e vms)))
    by (apply alookup_In; rewrite Hl; exact Eg).
  unfold validateAntiAffinityRules in Ha.
  rewrite (firstGroupCheck_unique _ _ _ _ k g) in Ha.
  - unfold checkAntiAffinityConstraints in Ha.
    destruct (existsb _ (g_VMs g)) eqn:Ex; [discriminate|].
    apply not_true_iff_false in Ex. apply Ex, existsb_exists. exists o.
    rewrite Hvms. split; [exact Ho|].
    rewrite Hon, String.eqb_refl, andb_true_r. apply negb_true_iff, Z.eqb_neq, Hid.
  - exact (Permutation_in _ Hperm Hin).
  - intros [k' g'] Hp Hf. apply (Permutation_in _ (Permutation_sym Hperm)) in Hp.
    pose proof (group_in_map _ _ vms k' g' Hnd Hl Hp) as Eg'.
    destruct (group_of_nodes _ _ _ _ Eg') as [_ [Hvms' _]].
    simpl in Hf. unfold findVMInGroup in Hf.
    destruct (find _ (g_VMs g')) as [v|] eqn:Efind; [|congruence].
    apply find_some in Efind. destruct Efind as [Hv' Hidv]. apply Z.eqb_eq in Hidv.
    rewrite Hvms' in Hv'. assert (k' = k) by exact (Honly k' v Hv' Hidv). subst k'.
    rewrite Eg in Eg'. injection Eg' as ->. reflexivity.
  - destruct Hk as [v [Hvk Hidv]]. unfold findVMInGroup. intros Hnone.
    pose proof (find_none _ _ Hnone v) as F. rewrite Hvms in F. specialize (F Hvk).
    rewrite Hidv, Z.eqb_refl in F. discriminate.
Qed.

Lemma ProcessVMs_group_nodes_witness :
  let g := mkGroup "web" web_vms ["a"; "b"] in
  alookup "web" (affinityGroups (ProcessVMs NewEngine web_vms)) = Some g /\
  (g_Tag g = "web" /\ g_VMs g <> [] /\ NoDup (g_Nodes g) /\
   forall n, In n (g_Nodes g) <-> exists v, In v (g_VMs g) /\ vm_Node v = n).
Proof.
  intros g.
  assert (Hg : alookup "web" (affinityGroups (ProcessVMs NewEngine web_vms)) = Some g)
    by (vm_compute; reflexivity).
  split; [exact Hg|].
  exact (ProcessVMs_group_nodes NewEngine web_vms "web" g (or_introl Hg)).
Defined.

Lemma GetValidTargetNodes_ignore_pin_witness :
  let vms := [tagged_vm 7 "app" "a" ["plb_pin_b"; " plb_pin_c"]] in
  let vm := tagged_vm 7 "app" "a" ["plb_pin_b"; " plb_pin_c"] in
  let e := ProcessVMs NewEngine vms in
  same_maps e e /\ GetValidTargetNodes e vm ["b"; "c"; "d"] = ["b"; "c"] /\
  ((ignore_tagged vms (vm_ID vm) = true -> GetValidTargetNodes e vm ["b"; "c"; "d"] = []) /\
   forall n, In n (GetValidTargetNodes e vm ["b"; "c"; "d"]) ->
     In n ["b"; "c"; "d"] /\
     (pin_targets vms (vm_ID vm) <> [] -> In n (pin_targets vms (vm_ID vm)))).
Proof.
  intros vms vm e.
  assert (Hm : same_maps e e)
    by (split; [apply Permutation_refl|split; [apply Permutation_refl|split; reflexivity]]).
  split; [exact Hm|split; [vm_compute; reflexivity|]].
  exact (GetValidTargetNodes_ignore_pin NewEngine e vms vm ["b"; "c"; "d"] Hm).
Defined.

Lemma GetValidTargetNodes_untagged_witness :
  let vms := (web_vms ++ [tagged_vm 9 "plain" "a" []])%list in
  let vm := tagged_vm 9 "plain" "a" [] in
  let e := ProcessVMs NewEngine vms in
  same_maps e e /\
  (forall v, In v vms -> vm_ID v = vm_ID vm -> vm_Tags v = []) /\
  GetValidTargetNodes e vm ["a"; "b"; "c"] = ["a"; "b"; "c"].
Proof.
  intros vms vm e.
  assert (Hm : same_maps e e)
    by (split; [apply Permutation_refl|split; [apply Permutation_refl|split; reflexivity]]).
  assert (Hnt : forall v, In v vms -> vm_ID v = vm_ID vm -> vm_Tags v = []).
  { intros v Hv Hid. simpl in Hv.
    destruct Hv as [<-|[<-|[<-|[<-|[]]]]]; simpl in Hid; try discriminate; reflexivity. }
  split; [exact Hm|split; [exact Hnt|]].
  exact (GetValidTargetNodes_untagged NewEngine e vms vm ["a"; "b"; "c"] Hm Hnt).
Defined.

Lemma GetValidTargetNodes_anti_affinity_witness :
  let db1 := tagged_vm 1 "db1" "a" ["plb_anti_affinity_db"] in
  let vms := [db1; tagged_vm 2 "db2" "b" ["plb_anti_affinity_db"]] in
  let e := ProcessVMs NewEngine vms in
  GetValidTargetNodes e db1 ["b"; "c"] = ["c"] /\
  forall n, In n (GetValidTargetNodes e db1 ["b"; "c"]) ->
  forall o, In o (group_members "plb_anti_affinity_" "db" vms) -> vm_ID o <> vm_ID db1 ->
  vm_Node o <> n.
Proof.
  intros db1 vms e.
  assert (Hm : same_maps e e)
    by (split; [apply Permutation_refl|split; [apply Permutation_refl|split; reflexivity]]).
  assert (Hk : exists v, In v (group_members "plb_anti_affinity_" "db" vms) /\
                         vm_ID v = vm_ID db1)
    by (exists db1; split; [vm_compute; left; reflexivity|reflexivity]).
  assert (Honly : forall k' v, In v (group_members "plb_anti_affinity_" k' vms) ->
                               vm_ID v = vm_ID db1 -> k' = "db").
  { intros k' v Hv Hid. destruct (In_group_members _ _ _ _ Hv) as [t [Hin [Ht [_ Ha]]]].
    simpl in Hin. destruct Hin as [<-|[<-|[]]]; simpl in Ht, Hid; try discriminate;
      destruct Ht as [<-|[]]; rewrite <- Ha; vm_compute; reflexivity. }
  split; [vm_compute; reflexivity|].
  exact (GetValidTargetNodes_anti_affinity NewEngine e vms db1 "db" ["b"; "c"] Hm Hk Honly).
Defined.

(** ** Advanced balancer: the cycle *)

Section ScanInvariant.
Variables (b : AdvancedBalancer) (now : Z) (sc : list NodeScore) (ag : AggressivenessConfig).
Variable P : Migration -> Prop.

Lemma scan_vms_inv src vms acc :
  (forall vm, In vm vms -> vm_Status vm = "running" -> findBestTargetNode b vm sc src <> "" ->
     P (mkMigration vm src (findBestTargetNode b vm sc src) "pending" now)) ->
  Forall P acc -> Forall P (fst (scan_vms b now sc ag src vms acc)).
Proof.
  revert acc; induction vms as [|vm vms IH]; intros acc Hp Hacc; [exact Hacc|].
  assert (Hp' : forall vm', In vm' vms -> vm_Status vm' = "running" ->
                  findBestTargetNode b vm' sc src <> "" ->
                  P (mkMigration vm' src (findBestTargetNode b vm' sc src) "pending" now))
    by (intros vm' Hin; apply Hp; now right).
  cbn [scan_vms].
  destruct (String.eqb_spec (vm_Status vm) "running") as [Hr|]; cbn [negb];
    [|apply IH; assumption].
  destruct (canMigrateVM b now vm src); [|apply IH; assumption].
  destruct (String.eqb_spec (findBestTargetNode b vm sc src) "") as [|Ht];
    [apply IH; assumption|].
  destruct (flt _ _); [apply IH; assumption|].
  assert (Hacc' : Forall P (acc ++ [mkMigration vm src (findBestTargetNode b vm sc src)
                                   "pending" now]))
    by (apply Forall_app; split; [exact Hacc|constructor; [apply Hp; auto; now left|constructor]]).
  match goal with |- context [if (5 <=? ?l)%nat then _ else _] => destruct (5 <=? l)%nat end;
    [exact Hacc'|apply IH; assumption].
Qed.

Lemma scan_nodes_inv ns acc :
  (forall n vm, In n ns -> In vm (node_VMs n) -> vm_Status vm = "running" ->
     findBestTargetNode b vm sc (node_Name n) <> "" ->
     P (mkMigration vm (node_Name n) (findBestTargetNode b vm sc (node_Name n)) "pending" now)) ->
  Forall P acc -> Forall P (scan_nodes b now sc ag ns acc).
Proof.
  revert acc; induction ns as [|n ns IH]; intros acc Hp Hacc; simpl; [exact Hacc|].
  pose proof (scan_vms_inv (node_Name n) (node_VMs n) acc
                (fun vm => Hp n vm (or_introl eq_refl)) Hacc) as H.
  destruct (scan_vms b now sc ag (node_Name n) (node_VMs n) acc) as [acc' stop].
  destruct stop; [exact H|].
  apply IH; [|exact H]. intros n' vm Hn'. apply Hp. now right.
Qed.

End ScanInvariant.

Lemma findBestTargetNode_some (b : AdvancedBalancer) (vm : VM) (sc : list NodeScore)
  (src : string) :
  findBestTargetNode b vm sc src <> "" ->
  exists s, In s sc /\ ns_Node s = findBestTargetNode b vm sc src /\ ns_Node s <> src /\
    ValidatePlacement (ab_engine b) vm (ns_Node s) = None.
Proof.
  unfold findBestTargetNode.
  destruct (find _ sc) as [s|] eqn:E; [|intros C; contradiction C; reflexivity].
  intros _. apply find_some in E. destruct E as [Hin Hb].
  apply andb_prop in Hb. destruct Hb as [H1 H2].
  apply negb_true_iff, String.eqb_neq in H1.
  apply existsb_exists in H2. destruct H2 as [x [Hx Heq]]. apply String.eqb_eq in Heq. subst x.
  apply In_GetValidTargetNodes in Hx. destruct Hx as [_ Hv].
  exists s. auto.
Qed.

Lemma In_filterAvailableNodes (b : AdvancedBalancer) (nodes : list Node) (n : Node) :
  In n (filterAvailableNodes b nodes) <->
  In n nodes /\ node_Status n = "online" /\ isInMaintenance (ab_config b) (node_Name n) = false.
Proof.
  unfold filterAvailableNodes. rewrite filter_In.
  rewrite andb_true_iff, negb_true_iff, String.eqb_eq. tauto.
Qed.

(** [set_loadProfiles] keeps what [prepare] computes, up to the load profiles. *)
Lemma prepare_set_loadProfiles (b : AdvancedBalancer) lp (cl : Client) (nodes : list Node) :
  exists lp', prepare (set_loadProfiles b lp) cl nodes = set_loadProfiles (prepare b cl nodes) lp'.
Proof.
  unfold prepare. simpl.
  destruct (cfg_LoadProfilesEnabled (ab_config b)); simpl;
    destruct (cfg_CapacityEnabled (ab_config b)); eexists; reflexivity.
Qed.

Lemma lt_go_int (T : Z) (x : Q) : (T < go_int x)%Z -> inject_Z T < x.
Proof.
  unfold go_int. destruct (Qle_bool 0 x) eqn:E; intros H.
  - apply Qlt_le_trans with (inject_Z (Qfloor x)); [rewrite <- Zlt_Qlt; exact H|apply Qfloor_le].
  - pose proof (Qlt_floor (- x)) as Hf.
    assert (Hle : inject_Z (Qfloor (- x) + 1) <= inject_Z (- T)) by (rewrite <- Zle_Qle; lia).
    assert (Hlt : - x < inject_Z (- T)) by (eapply Qlt_le_trans; eassumption).
    rewrite inject_Z_opp in Hlt. apply Qopp_lt_compat in Hlt. rewrite !Qopp_opp in Hlt.
    exact Hlt.
Qed.

Lemma lt_go_int_nonneg (T : Z) (x : Q) :
  0 <= x -> ((T < go_int x)%Z <-> inject_Z (T + 1) <= x).
Proof.
  intros Hx. rewrite (go_int_nonneg x Hx). split; intros H.
  - apply Qle_trans with (inject_Z (Qfloor x)); [rewrite <- Zle_Qle; lia|apply Qfloor_le].
  - apply Qfloor_resp_le in H. rewrite Qfloor_Z in H. lia.
Qed.

Lemma Qltb_lt (x y : Q) : x < y -> Qltb x y = true.
Proof.
  intros H. unfold Qltb. apply negb_true_iff, not_true_iff_false. intros H'.
  apply Qle_bool_iff in H'. apply Qle_not_lt in H'. contradiction.
Qed.

Lemma In_executeMigrations (cl : Client) (now : Z) (ms : list Migration) r :
  In r (executeMigrations cl now ms) -> r_Timestamp r = now /\ r_Reason r = "load_balancing".
Proof.
  unfold executeMigrations. rewrite in_map_iff. intros [m [<- _]]. auto.
Qed.

(** Every result of an advanced cycle reports one issued [MigrateVM] call, in
    the order of the calls: a failed call does not stop the later ones.  A
    result is successful exactly when its call returned no error, and is
    stamped with the cycle time. *)
Theorem advanced_results_match_calls (b : AdvancedBalancer) (cl : Client) (now : Z)
  (force : bool) :
  let o := Run b cl now force in
  map (fun r => (vm_ID (r_VM r), r_SourceNode r, r_TargetNode r)) (out_results o)
    = out_calls o /\
  Forall (fun r => r_Success r = match MigrateVM cl (vm_ID (r_VM r)) (r_SourceNode r)
                                         (r_TargetNode r) with
                                 | None => true | Some _ => false end /\
                   r_Timestamp r = now) (out_results o).
Proof.
  intros o. subst o.
  destruct (Run_cases b cl now force) as [[Hr [Hc _]]|[nodes [_ [Hr [Hc _]]]]];
    rewrite Hr, Hc.
  - split; [reflexivity|constructor].
  - unfold executeMigrations. rewrite map_map. split; [reflexivity|].
    apply Forall_forall. intros r Hin. apply in_map_iff in Hin. destruct Hin as [m [<- _]].
    split; reflexivity.
Qed.

(** A migration [(v, src, dst)] an advanced cycle issues moves a running VM
    [v] of node [src] to another node [dst]; both nodes are online, out of
    maintenance, and in the node list of the cycle, and [src] is over a
    threshold after truncation to an integer. *)
Theorem advanced_plan_shape (b : AdvancedBalancer) (cl : Client) (now : Z) (force : bool)
  (v : Z) (src dst : string) (Hc : In (v, src, dst) (out_calls (Run b cl now force))) :
  exists nodes n vm n', GetNodes cl = Some nodes /\
    In n nodes /\ node_Name n = src /\ node_Status n = "online" /\
    isInMaintenance (ab_config b) src = false /\ isOverloaded (ab_config b) n = true /\
    In vm (node_VMs n) /\ vm_ID vm = v /\ vm_Status vm = "running" /\
    In n' nodes /\ node_Name n' = dst /\ node_Status n' = "online" /\
    isInMaintenance (ab_config b) dst = false /\ dst <> src.
Proof.
  destruct (Run_cases b cl now force) as [[_ [Hcalls _]]|[nodes [Hg [_ [Hcalls _]]]]];
    rewrite Hcalls in Hc; [destruct Hc|].
  apply in_map_iff in Hc. destruct Hc as [m [Hm Hin]].
  destruct (prepare_fields b cl (filterAvailableNodes b nodes)) as [Hcfg _].
  set (avail := filterAvailableNodes b nodes) in *.
  set (b2 := prepare b cl avail) in *.
  set (sc := calculateAdvancedNodeScores b2 now avail) in *.
  assert (HP : Forall (fun m => exists n, In n (filter (isOverloaded (ab_config b2)) avail) /\
                 node_Name n = m_FromNode m /\ In (m_VM m) (node_VMs n) /\
                 vm_Status (m_VM m) = "running" /\
                 exists s, In s sc /\ ns_Node s = m_ToNode m /\ ns_Node s <> m_FromNode m)
                 (findOptimalMigrations b2 now avail sc (GetAggressivenessConfig (ab_config b2)))).
  { unfold findOptimalMigrations. apply scan_nodes_inv; [|constructor].
    intros n vm Hn Hvm Hr Ht. exists n. simpl. repeat split; auto.
    destruct (findBestTargetNode_some b2 vm sc (node_Name n) Ht) as [s [Hs [Hsn [Hne _]]]].
    exists s. auto. }
  rewrite Forall_forall in HP.
  destruct (HP m Hin) as [n [Hn [Hsrc [Hvm [Hr [s [Hs [Hdst Hne]]]]]]]].
  unfold call_of in Hm. injection Hm as Hv Hs1 Hd1.
  apply filter_In in Hn. destruct Hn as [Hn Hov]. rewrite Hcfg in Hov.
  apply In_filterAvailableNodes in Hn. destruct Hn as [Hn [Hon Hmn]].
  destruct (advanced_scores_from_nodes _ _ _ _ Hs) as [n' [Hn' Hsn']].
  apply In_filterAvailableNodes in Hn'. destruct Hn' as [Hn' [Hon' Hmn']].
  rewrite Hsn' in Hdst, Hne. simpl in Hdst, Hne.
  exists nodes, n, (m_VM m), n'.
  rewrite <- Hs1, <- Hd1, <- Hsrc, <- Hdst, <- Hv.
  repeat split; auto. congruence.
Qed.

(** A cycle that is not forced, within [CooldownPeriod] seconds of the last
    full cycle, issues no migration and leaves the history and the last-run
    time as they were. *)
Theorem advanced_run_cooldown (b : AdvancedBalancer) (cl : Client) (now t : Z)
  (Hlast : ab_lastRun b = Some t)
  (Hcd : (now - t < CooldownPeriod (GetAggressivenessConfig (ab_config b)))%Z) :
  let o := Run b cl now false in
  out_results o = [] /\ out_calls o = [] /\ ab_lastRun (out_state o) = Some t /\
  ab_migrationHistory (out_state o) = ab_migrationHistory b.
Proof.
  intros o. subst o. unfold Run.
  destruct (GetNodes cl) as [nodes|]; [|simpl; auto].
  destruct (_ <? 2)%nat; [simpl; auto|].
  destruct (prepare_fields b cl (filterAvailableNodes b nodes)) as [Hc [_ [Hl Hh]]].
  destruct (negb false && _); [cbn [out_results out_calls out_state]; rewrite Hl, Hh; auto|].
  rewrite Hl, Hlast, Hc. apply Z.ltb_lt in Hcd. rewrite Hcd.
  cbn [out_results out_calls out_state negb andb]. rewrite Hl, Hh; auto.
Qed.

(** After an advanced cycle, either nothing was migrated and the history and
    last-run time are unchanged, or the last-run time is the cycle time and
    the history holds exactly the entries younger than a day among the old
    ones and the successful results of the cycle. *)
Theorem advanced_run_history (b : AdvancedBalancer) (cl : Client) (now : Z) (force : bool) :
  let o := Run b cl now force in
  (out_results o = [] /\ ab_lastRun (out_state o) = ab_lastRun b /\
   ab_migrationHistory (out_state o) = ab_migrationHistory b) \/
  (ab_lastRun (out_state o) = Some now /\
   forall h, In h (ab_migrationHistory (out_state o)) <->
     (now - 86400 < h_Timestamp h)%Z /\
     (In h (ab_migrationHistory b) \/
      exists r, In r (out_results o) /\ r_Success r = true /\
        h = mkHistory (vm_ID (r_VM r)) (r_SourceNode r) (r_TargetNode r) now "load_balancing")).
Proof.
  intros o. subst o. unfold Run.
  destruct (GetNodes cl) as [nodes|]; [|left; simpl; auto].
  destruct (_ <? 2)%nat; [left; simpl; auto|].
  destruct (prepare_fields b cl (filterAvailableNodes b nodes)) as [_ [_ [Hl Hh]]].
  destruct (negb force && _); [left; cbn [out_results out_state]; auto|].
  destruct (negb force && _); [left; cbn [out_results out_state]; auto|].
  right. cbn [out_results out_state ab_lastRun set_lastRun]. split; [reflexivity|].
  intros h. unfold updateMigrationHistory, set_lastRun, set_history. cbn [ab_migrationHistory].
  change (24 * 3600)%Z with 86400%Z.
  rewrite filter_In, in_app_iff, Hh, Z.ltb_lt, in_map_iff.
  split.
  - intros [[Hin|[r [<- Hr]]] Hts]; split; auto.
    right. apply filter_In in Hr. destruct Hr as [Hr Hs].
    destruct (In_executeMigrations _ _ _ _ Hr) as [Ht Hre].
    exists r. rewrite Ht, Hre. auto.
  - intros [Hts [Hin|[r [Hr [Hs ->]]]]]; split; auto.
    right. destruct (In_executeMigrations _ _ _ _ Hr) as [Ht Hre].
    exists r. rewrite Ht, Hre. split; [reflexivity|]. apply filter_In. auto.
Qed.

(** [findOptimalMigrations] takes as sources the nodes whose usage, truncated
    to an integer, is over a threshold; [needsBalancing] compares the exact
    usage.  A source node always triggers balancing; for non-negative usages
    a node is a source exactly when some usage is at least its threshold + 1. *)
Theorem isOverloaded_exceeds (c : Config) (n : Node) :
  (isOverloaded c n = true -> exceeds c n = true) /\
  (0 <= node_CPU n -> 0 <= node_Memory n -> 0 <= node_Storage n ->
   (isOverloaded c n = true <->
    inject_Z (cfg_ThresholdCPU c + 1) <= node_CPU n \/
    inject_Z (cfg_ThresholdMemory c + 1) <= node_Memory n \/
    inject_Z (cfg_ThresholdStorage c + 1) <= node_Storage n)).
Proof.
  unfold isOverloaded, exceeds. rewrite !orb_true_iff, !Z.ltb_lt. split.
  - intros [[H|H]|H]; apply lt_go_int, Qltb_lt in H; rewrite H; auto.
  - intros Hc Hm Hs.
    rewrite (lt_go_int_nonneg _ _ Hc), (lt_go_int_nonneg _ _ Hm), (lt_go_int_nonneg _ _ Hs).
    tauto.
Qed.

Lemma filter_all_false {A} (f : A -> bool) (l : list A) :
  (forall x, In x l -> f x = false) -> filter f l = [].
Proof.
  induction l as [|x l IH]; intros H; [reflexivity|]. simpl.
  rewrite (H x (or_introl eq_refl)). apply IH. intros y Hy. apply H. now right.
Qed.

(** When no node the cycle sees is over a threshold after truncation, an
    advanced cycle migrates nothing, even when balancing was triggered. *)
Theorem advanced_no_overloaded_no_migration (b : AdvancedBalancer) (cl : Client) (now : Z)
  (force : bool) (nodes : list Node) (Hg : GetNodes cl = Some nodes)
  (Hno : forall n, In n nodes -> isOverloaded (ab_config b) n = false) :
  out_results (Run b cl now force) = [] /\ out_calls (Run b cl now force) = [].
Proof.
  destruct (Run_cases b cl now force) as [[Hr [Hc _]]|[nodes' [Hg' [Hr [Hc _]]]]];
    [auto|].
  rewrite Hg in Hg'. injection Hg' as <-. rewrite Hr, Hc.
  destruct (prepare_fields b cl (filterAvailableNodes b nodes)) as [Hcfg _].
  unfold findOptimalMigrations. rewrite Hcfg.
  rewrite filter_all_false; [split; reflexivity|].
  intros n Hn. apply In_filterAvailableNodes in Hn. apply Hno, Hn.
Qed.

(** The load profiles a balancer holds never change what a cycle does: the
    results, the error, the [MigrateVM] calls and every other field of the
    new state are the same. *)
Theorem advanced_loadProfiles_unused (b : AdvancedBalancer) lp (cl : Client) (now : Z)
  (force : bool) :
  let o := Run b cl now force in
  let o' := Run (set_loadProfiles b lp) cl now force in
  out_results o' = out_results o /\ out_err o' = out_err o /\ out_calls o' = out_calls o /\
  exists lp', out_state o' = set_loadProfiles (out_state o) lp'.
Proof.
  intros o o'. subst o o'. unfold Run.
  destruct (GetNodes cl) as [nodes|]; [|repeat split; exists lp; reflexivity].
  change (filterAvailableNodes (set_loadProfiles b lp) nodes)
    with (filterAvailableNodes b nodes).
  destruct (_ <? 2)%nat; [repeat split; exists lp; reflexivity|].
  destruct (prepare_set_loadProfiles b lp cl (filterAvailableNodes b nodes)) as [lp' ->].
  set (b2 := prepare b cl (filterAvailableNodes b nodes)).
  change (needsBalancing (set_loadProfiles b2 lp') ?x) with (needsBalancing b2 x).
  change (ab_lastRun (set_loadProfiles b2 lp')) with (ab_lastRun b2).
  change (ab_config (set_loadProfiles b2 lp')) with (ab_config b2).
  change (calculateAdvancedNodeScores (set_loadProfiles b2 lp') ?a ?c)
    with (calculateAdvancedNodeScores b2 a c).
  change (findOptimalMigrations (set_loadProfiles b2 lp') ?a ?c ?d ?e)
    with (findOptimalMigrations b2 a c d e).
  repeat match goal with |- context [if ?c then _ else _] => destruct c end;
    repeat split; exists lp'; reflexivity.
Qed.

(** ** Target choice: the lowest score wins *)

Lemma insert_sorted_key {A} (key : A -> Q) (x : A) (l : list A) :
  StronglySorted (fun a c => key a <= key c) l ->
  StronglySorted (fun a c => key a <= key c) (insert_by (fun a c => Qltb (key a) (key c)) x l).
Proof.
  induction l as [|y l IH]; intros Hs; simpl.
  - repeat constructor.
  - inversion Hs as [|? ? Hl Hy]; subst.
    destruct (Qltb (key x) (key y)) eqn:E.
    + apply Qltb_true in E. constructor; [exact Hs|].
      constructor; [now apply Qlt_le_weak|].
      eapply Forall_impl; [|exact Hy]. intros z Hz.
      apply Qle_trans with (key y); [now apply Qlt_le_weak|exact Hz].
    + apply Qltb_false in E. constructor; [now apply IH|].
      apply (Permutation_Forall (insert_by_perm _ x l)). now constructor.
Qed.

Lemma sort_by_sorted_key {A} (key : A -> Q) (l : list A) :
  StronglySorted (fun a c => key a <= key c) (sort_by (fun a c => Qltb (key a) (key c)) l).
Proof.
  unfold sort_by.
  assert (H : forall acc, StronglySorted (fun a c => key a <= key c) acc ->
            StronglySorted (fun a c => key a <= key c)
              (fold_left (fun acc x => insert_by (fun a c => Qltb (key a) (key c)) x acc) l acc)).
  { induction l as [|x l IH]; intros acc Hacc; simpl; [exact Hacc|].
    apply IH, insert_sorted_key, Hacc. }
  apply H; constructor.
Qed.

(** [find] on a list sorted by [key] returns an element of least key among
    those it accepts. *)
Lemma find_sorted_min {A} (key : A -> Q) (f : A -> bool) (l : list A) (y : A) :
  StronglySorted (fun a c => key a <= key c) l -> In y l -> f y = true ->
  exists s, find f l = Some s /\ In s l /\ f s = true /\
    forall z, In z l -> f z = true -> key s <= key z.
Proof.
  induction l as [|x l IH]; intros Hs Hy Hf; [destruct Hy|].
  inversion Hs as [|? ? Hl Hx]; subst. simpl.
  destruct (f x) eqn:E.
  - exists x. split; [reflexivity|split; [now left|split; [exact E|]]].
    intros z [<-|Hz] _; [apply Qle_refl|].
    rewrite Forall_forall in Hx. exact (Hx z Hz).
  - destruct Hy as [<-|Hy]; [congruence|].
    destruct (IH Hl Hy Hf) as [s [Hfind [Hin [Hfs Hmin]]]].
    exists s. split; [exact Hfind|split; [now right|split; [exact Hfs|]]].
    intros z [<-|Hz] Hfz; [congruence|]. exact (Hmin z Hz Hfz).
Qed.

Lemma insert_by_ext {A} (less1 less2 : A -> A -> bool) (x : A) (l : list A) :
  (forall y, In y l -> less1 x y = less2 x y) -> insert_by less1 x l = insert_by less2 x l.
Proof.
  induction l as [|y l IH]; intros H; simpl; [reflexivity|].
  rewrite (H y (or_introl eq_refl)), IH by (intros z Hz; apply H; right; exact Hz).
  reflexivity.
Qed.

(** The sort only compares elements of its input. *)
Lemma sort_by_ext {A} (less1 less2 : A -> A -> bool) (l : list A) :
  (forall x y, In x l -> In y l -> less1 x y = less2 x y) ->
  sort_by less1 l = sort_by less2 l.
Proof.
  intros H. unfold sort_by.
  assert (G : forall l' acc, (forall x, In x l' -> In x l) -> (forall x, In x acc -> In x l) ->
            fold_left (fun acc x => insert_by less1 x acc) l' acc
            = fold_left (fun acc x => insert_by less2 x acc) l' acc).
  { induction l' as [|x l' IH]; intros acc H1 H2; simpl; [reflexivity|].
    rewrite (insert_by_ext less1 less2 x acc)
      by (intros y Hy; apply H; [apply H1; left; reflexivity|apply H2, Hy]).
    apply IH; [intros z Hz; apply H1; right; exact Hz|].
    intros z Hz. apply (Permutation_in _ (Permutation_sym (insert_by_perm less2 x acc))) in Hz.
    destruct Hz as [<-|Hz]; [apply H1; left; reflexivity|apply H2, Hz]. }
  apply G; [tauto|intros x []].
Qed.

(** The value of a finite double (0 for the others). *)
Definition fval (x : float) : Q := match x with FNum q => q | _ => 0 end.

(** On scores that are all finite, the float order of [sort.Slice] is the
    order of their values. *)
Lemma sort_scores_finite (l : list NodeScore) :
  (forall s, In s l -> exists q, ns_Score s = FNum q) ->
  sort_by (fun x y => flt (ns_Score x) (ns_Score y)) l
  = sort_by (fun x y => Qltb (fval (ns_Score x)) (fval (ns_Score y))) l.
Proof.
  intros H. apply sort_by_ext. intros x y Hx Hy.
  destruct (H x Hx) as [qx ->]. destruct (H y Hy) as [qy ->]. reflexivity.
Qed.

Lemma fle_finite (x y : Q) : x <= y -> fle (FNum x) (FNum y) = true.
Proof. intros H. apply Qle_bool_iff, H. Qed.

(** With integer weights of non-zero total, when some node of the cycle
    other than the source accepts [vm], the advanced [findBestTargetNode]
    returns such a node, and one whose final score is the lowest among
    them. *)
Theorem advanced_findBestTargetNode_min (b : AdvancedBalancer) (now : Z) (nodes : list Node)
  (vm : VM) (src : string) (n' : Node) (Hw : intWeightTotal (ab_config b) <> 0%Z)
  (Hn' : In n' nodes) (Hsrc : node_Name n' <> src)
  (Hvalid : ValidatePlacement (ab_engine b) vm (node_Name n') = None) :
  exists n, In n nodes /\
    findBestTargetNode b vm (calculateAdvancedNodeScores b now nodes) src = node_Name n /\
    node_Name n <> src /\ ValidatePlacement (ab_engine b) vm (node_Name n) = None /\
    forall n'', In n'' nodes -> node_Name n'' <> src ->
      ValidatePlacement (ab_engine b) vm (node_Name n'') = None ->
      fle (ns_Score (advancedScore b now n)) (ns_Score (advancedScore b now n'')) = true.
Proof.
  assert (Hsort : StronglySorted (fun a c => fval (ns_Score a) <= fval (ns_Score c))
                    (calculateAdvancedNodeScores b now nodes)).
  { unfold calculateAdvancedNodeScores. rewrite sort_scores_finite.
    - apply (sort_by_sorted_key (fun s => fval (ns_Score s))).
    - intros s Hs. apply in_map_iff in Hs. destruct Hs as [n [<- _]].
      apply advancedScore_finite, Hw. }
  set (sc := calculateAdvancedNodeScores b now nodes) in *.
  set (valid := GetValidTargetNodes (ab_engine b) vm
                  (map ns_Node (filter (fun s => negb (String.eqb (ns_Node s) src)) sc))).
  set (f := fun s => negb (String.eqb (ns_Node s) src) && existsb (String.eqb (ns_Node s)) valid).
  assert (Hsc : forall n, In n nodes -> In (advancedScore b now n) sc).
  { intros n Hn. unfold sc, calculateAdvancedNodeScores.
    apply (Permutation_in _ (sort_by_perm _ _)), in_map, Hn. }
  assert (Hf : forall n, In n nodes -> node_Name n <> src ->
                 ValidatePlacement (ab_engine b) vm (node_Name n) = None ->
                 f (advancedScore b now n) = true).
  { intros n Hn Hne Hv. unfold f. simpl. apply andb_true_intro. split.
    - apply negb_true_iff, String.eqb_neq, Hne.
    - apply existsb_exists. exists (node_Name n). split; [|apply String.eqb_refl].
      unfold valid. apply In_GetValidTargetNodes. split; [|exact Hv].
      apply in_map_iff. exists (advancedScore b now n). split; [reflexivity|].
      apply filter_In. split; [apply Hsc, Hn|]. simpl. apply negb_true_iff, String.eqb_neq, Hne. }
  destruct (find_sorted_min (fun s => fval (ns_Score s)) f sc (advancedScore b now n')
              Hsort (Hsc n' Hn') (Hf n' Hn' Hsrc Hvalid))
    as [s [Hfind [Hin [Hfs Hmin]]]].
  destruct (advanced_scores_from_nodes _ _ _ _ Hin) as [n [Hn ->]].
  unfold f in Hfs. simpl in Hfs. apply andb_prop in Hfs. destruct Hfs as [H1 H2].
  apply negb_true_iff, String.eqb_neq in H1.
  apply existsb_exists in H2. destruct H2 as [x [Hx Heq]]. apply String.eqb_eq in Heq. subst x.
  apply In_GetValidTargetNodes in Hx. destruct Hx as [_ Hv].
  exists n. split; [exact Hn|]. split.
  - unfold findBestTargetNode. fold sc. fold valid. fold f. rewrite Hfind. reflexivity.
  - split; [exact H1|split; [exact Hv|]].
    intros n'' Hn'' Hne Hv''. pose proof (Hmin _ (Hsc n'' Hn'') (Hf n'' Hn'' Hne Hv'')) as Hle.
    destruct (advancedScore_finite b now n Hw) as [q Hq].
    destruct (advancedScore_finite b now n'' Hw) as [q'' Hq''].
    cbv beta in Hle. rewrite Hq, Hq'' in *. apply fle_finite, Hle.
Qed.

Lemma threshold_scores_from_nodes (b : Threshold.Balancer) (nodes : list Node) (s : NodeScore) :
  In s (Threshold.calculateNodeScores b nodes) ->
  exists n, In n nodes /\ s = Threshold.calculateNodeScore b n.
Proof.
  intros Hs. unfold Threshold.calculateNodeScores in Hs.
  apply (Permutation_in _ (Permutation_sym (sort_by_perm _ _))) in Hs.
  apply in_map_iff in Hs. destruct Hs as [n [<- Hn]]. eauto.
Qed.

Lemma threshold_findBestTargetNode_some (b : Threshold.Balancer) (vm : VM)
  (sc : list NodeScore) :
  Threshold.findBestTargetNode b vm sc <> "" ->
  exists s, In s sc /\ ns_Node s = Threshold.findBestTargetNode b vm sc /\
    ns_Node s <> vm_Node vm /\
    ValidatePlacement (Threshold.tb_engine b) vm (ns_Node s) = None.
Proof.
  unfold Threshold.findBestTargetNode.
  destruct (GetValidTargetNodes _ _ _) as [|x0 l0] eqn:Ev; [intros C; contradiction C; reflexivity|].
  rewrite <- Ev.
  destruct (find _ sc) as [s|] eqn:E; [|intros C; contradiction C; reflexivity].
  intros _. apply find_some in E. destruct E as [Hin Hb].
  apply existsb_exists in Hb. destruct Hb as [x [Hx Heq]]. apply String.eqb_eq in Heq. subst x.
  apply In_GetValidTargetNodes in Hx. destruct Hx as [Hc Hv].
  apply in_map_iff in Hc. destruct Hc as [s' [Hs' Hf]]. apply filter_In in Hf.
  destruct Hf as [_ Hne]. apply negb_true_iff, String.eqb_neq in Hne. rewrite Hs' in Hne.
  exists s. auto.
Qed.

(** With weights of non-zero sum, every threshold score is finite, the
    weighted sum divided by the weight sum. *)
Lemma threshold_score_finite (b : Threshold.Balancer) (n : Node) :
  ~ (Threshold.weightTotal (Threshold.tb_config b) == 0) ->
  ns_Score (Threshold.calculateNodeScore b n)
  = FNum ((node_CPU n / 100 * cfg_WeightCPU (Threshold.tb_config b)
           + node_Memory n / 100 * cfg_WeightMemory (Threshold.tb_config b)
           + node_Storage n / 100 * cfg_WeightStorage (Threshold.tb_config b))
          / Threshold.weightTotal (Threshold.tb_config b)).
Proof.
  intros Hw. unfold Threshold.calculateNodeScore, Threshold.weightTotal in *.
  cbn [ns_Score fadd fmul fdiv].
  destruct (Qeq_bool _ 0) eqn:E; [apply Qeq_bool_iff in E; contradiction|reflexivity].
Qed.

(** With weights of non-zero sum, when some node other than the VM's host
    accepts it, the threshold [findBestTargetNode] returns such a node, and
    one whose weighted score is the lowest among them. *)
Theorem threshold_findBestTargetNode_min (b : Threshold.Balancer) (nodes : list Node) (vm : VM)
  (n' : Node) (Hw : ~ (Threshold.weightTotal (Threshold.tb_config b) == 0)) (Hn' : In n' nodes) (Hsrc : node_Name n' <> vm_Node vm)
  (Hvalid : ValidatePlacement (Threshold.tb_engine b) vm (node_Name n') = None) :
  exists n, In n nodes /\
    Threshold.findBestTargetNode b vm (Threshold.calculateNodeScores b nodes) = node_Name n /\
    node_Name n <> vm_Node vm /\ ValidatePlacement (Threshold.tb_engine b) vm (node_Name n) = None /\
    forall n'', In n'' nodes -> node_Name n'' <> vm_Node vm ->
      ValidatePlacement (Threshold.tb_engine b) vm (node_Name n'') = None ->
      fle (ns_Score (Threshold.calculateNodeScore b n))
          (ns_Score (Threshold.calculateNodeScore b n'')) = true.
Proof.
  assert (Hsort : StronglySorted (fun a c => fval (ns_Score a) <= fval (ns_Score c))
                    (Threshold.calculateNodeScores b nodes)).
  { unfold Threshold.calculateNodeScores. rewrite sort_scores_finite.
    - apply (sort_by_sorted_key (fun s => fval (ns_Score s))).
    - intros s Hs. apply in_map_iff in Hs. destruct Hs as [n [<- _]].
      eexists. apply threshold_score_finite, Hw. }
  set (sc := Threshold.calculateNodeScores b nodes) in *.
  set (valid := GetValidTargetNodes (Threshold.tb_engine b) vm
                  (map ns_Node (filter (fun s => negb (String.eqb (ns_Node s) (vm_Node vm))) sc))).
  set (f := fun s => existsb (String.eqb (ns_Node s)) valid).
  assert (Hsc : forall n, In n nodes -> In (Threshold.calculateNodeScore b n) sc).
  { intros n Hn. unfold sc, Threshold.calculateNodeScores.
    apply (Permutation_in _ (sort_by_perm _ _)), in_map, Hn. }
  assert (Hval : forall n, In n nodes -> node_Name n <> vm_Node vm ->
                   ValidatePlacement (Threshold.tb_engine b) vm (node_Name n) = None ->
                   In (node_Name n) valid).
  { intros n Hn Hne Hv. unfold valid. apply In_GetValidTargetNodes. split; [|exact Hv].
    apply in_map_iff. exists (Threshold.calculateNodeScore b n). split; [reflexivity|].
    apply filter_In. split; [apply Hsc, Hn|]. simpl. apply negb_true_iff, String.eqb_neq, Hne. }
  assert (Hf : forall n, In n nodes -> node_Name n <> vm_Node vm ->
                 ValidatePlacement (Threshold.tb_engine b) vm (node_Name n) = None ->
                 f (Threshold.calculateNodeScore b n) = true).
  { intros n Hn Hne Hv. unfold f. apply existsb_exists. exists (node_Name n).
    split; [apply Hval; assumption|apply String.eqb_refl]. }
  destruct (find_sorted_min (fun s => fval (ns_Score s)) f sc (Threshold.calculateNodeScore b n')
              Hsort (Hsc n' Hn') (Hf n' Hn' Hsrc Hvalid))
    as [s [Hfind [Hin [Hfs Hmin]]]].
  destruct (threshold_scores_from_nodes _ _ _ Hin) as [n [Hn ->]].
  unfold f in Hfs. apply existsb_exists in Hfs. destruct Hfs as [x [Hx Heq]].
  apply String.eqb_eq in Heq. simpl in Heq. subst x.
  pose proof Hx as Hx'. apply In_GetValidTargetNodes in Hx'. destruct Hx' as [Hc Hv].
  apply in_map_iff in Hc. destruct Hc as [s' [Hs' Hfl]]. apply filter_In in Hfl.
  destruct Hfl as [_ Hne]. apply negb_true_iff, String.eqb_neq in Hne. rewrite Hs' in Hne.
  exists n. split; [exact Hn|]. split.
  - unfold Threshold.findBestTargetNode. fold sc. fold valid.
    replace (find _ sc) with (Some (Threshold.calculateNodeScore b n)) by (symmetry; exact Hfind).
    destruct valid; [destruct Hx|reflexivity].
  - split; [exact Hne|split; [exact Hv|]].
    intros n'' Hn'' Hne'' Hv''. pose proof (Hmin _ (Hsc n'' Hn'') (Hf n'' Hn'' Hne'' Hv'')) as Hle.
    cbv beta in Hle. rewrite !threshold_score_finite in * by exact Hw. apply fle_finite, Hle.
Qed.

(** ** Threshold balancer: the cycle *)

Lemma threshold_executeMigration_calls (b : Threshold.Balancer) (cl : Client) (now : Z)
  (m : Migration) c :
  In c (snd (Threshold.executeMigration b cl now m)) -> c = call_of m.
Proof.
  unfold Threshold.executeMigration.
  destruct (GetNodes cl); [|intros []].
  destruct (MigrateVM cl _ _ _); simpl; intros [<-|[]]; reflexivity.
Qed.

(** A migration [(v, src, dst)] a threshold cycle issues moves a VM [v] that
    the node [src] lists; [src] is out of maintenance and over a threshold;
    [dst] is another node out of maintenance, not the VM's recorded host, and
    the engine that [ProcessVMs] built from all VMs of the cycle accepts the
    placement of the VM on [dst]. *)
Theorem threshold_calls_respect_rules (b : Threshold.Balancer) (cl : Client) (now : Z)
  (force : bool) (v : Z) (src dst : string)
  (Hc : In (v, src, dst) (out_calls (Threshold.Run b cl now force))) :
  exists nodes n vm n', GetNodes cl = Some nodes /\
    In n nodes /\ node_Name n = src /\ isInMaintenance (Threshold.tb_config b) src = false /\
    exceeds (Threshold.tb_config b) n = true /\
    In vm (node_VMs n) /\ vm_ID vm = v /\
    In n' nodes /\ node_Name n' = dst /\ isInMaintenance (Threshold.tb_config b) dst = false /\
    dst <> vm_Node vm /\
    ValidatePlacement (ProcessVMs (Threshold.tb_engine b) (flat_map node_VMs nodes)) vm dst = None.
Proof.
  revert Hc. unfold Threshold.Run.
  destruct (GetNodes cl) as [nodes|] eqn:Hg; [|intros []].
  destruct (_ <? 2)%nat; [intros []|].
  destruct (negb force && _); [intros []|].
  cbn [out_calls]. intros Hc.
  set (b1 := Threshold.set_engine b (ProcessVMs (Threshold.tb_engine b) (flat_map node_VMs nodes)))
    in *.
  set (sc := Threshold.calculateNodeScores b1 (Threshold.filterAvailableNodes b nodes)) in *.
  apply in_flat_map in Hc. destruct Hc as [x [Hx Hcx]].
  apply in_map_iff in Hx. destruct Hx as [m [<- Hm]].
  apply threshold_executeMigration_calls in Hcx.
  unfold Threshold.findMigrations in Hm. apply in_flat_map in Hm.
  destruct Hm as [n [Hn Hm]]. apply filter_In in Hn. destruct Hn as [Hn Hb].
  apply andb_prop in Hb. destruct Hb as [Hmn Hex]. apply negb_true_iff in Hmn.
  apply in_flat_map in Hm. destruct Hm as [vm [Hvm Hm]]. cbv zeta in Hm.
  destruct (IsIgnored _ _); [destruct Hm|].
  destruct (String.eqb_spec (Threshold.findBestTargetNode b1 vm sc) "") as [|Ht];
    [destruct Hm|].
  destruct (fle _ (FNum 0)); [destruct Hm|].
  destruct Hm as [<-|[]].
  unfold call_of in Hcx. cbn [m_VM m_FromNode m_ToNode] in Hcx.
  injection Hcx as Hv Hs Hd.
  destruct (threshold_findBestTargetNode_some b1 vm sc Ht) as [s [Hsin [Hsn [Hne Hval]]]].
  destruct (threshold_scores_from_nodes _ _ _ Hsin) as [n' [Hn' Hsn']].
  unfold Threshold.filterAvailableNodes in Hn'. apply filter_In in Hn'.
  destruct Hn' as [Hn' Hmn']. apply negb_true_iff in Hmn'.
  rewrite Hsn' in Hsn, Hne, Hval. simpl in Hsn, Hne.
  exists nodes, n, vm, n'.
  subst v src dst. rewrite <- Hsn.
  repeat split; assumption.
Qed.

(** The threshold balancer has no cycle cooldown: its last-run time never
    changes the results, the error, the [MigrateVM] calls or the rule engine
    of a cycle. *)
Theorem threshold_lastRun_unused (c : Config) (e : Engine) (l l' : option Z) (cl : Client)
  (now : Z) (force : bool) :
  let o := Threshold.Run (Threshold.mkBalancer c e l) cl now force in
  let o' := Threshold.Run (Threshold.mkBalancer c e l') cl now force in
  out_results o' = out_results o /\ out_err o' = out_err o /\ out_calls o' = out_calls o /\
  Threshold.tb_engine (out_state o') = Threshold.tb_engine (out_state o).
Proof.
  intros o o'. subst o o'. unfold Threshold.Run.
  destruct (GetNodes cl) as [nodes|]; [|repeat split].
  change (Threshold.filterAvailableNodes (Threshold.mkBalancer c e l') nodes)
    with (Threshold.filterAvailableNodes (Threshold.mkBalancer c e l) nodes).
  destruct (_ <? 2)%nat; [repeat split|].
  change (Threshold.needsBalancing (Threshold.set_engine (Threshold.mkBalancer c e l') ?x) nodes)
    with (Threshold.needsBalancing (Threshold.set_engine (Threshold.mkBalancer c e l) x) nodes).
  destruct (negb force && _); repeat split.
Qed.

(** ** Witnesses of the balancer properties *)

Lemma advanced_plan_shape_witness :
  let b := NewAdvancedBalancer defaultConfig in
  let cl := client_of [nodeA []; nodeB] in
  In (100%Z, "a", "b") (out_calls (Run b cl 1000000 false)) /\
  exists nodes n vm n', GetNodes cl = Some nodes /\
    In n nodes /\ node_Name n = "a" /\ node_Status n = "online" /\
    isInMaintenance (ab_config b) "a" = false /\ isOverloaded (ab_config b) n = true /\
    In vm (node_VMs n) /\ vm_ID vm = 100%Z /\ vm_Status vm = "running" /\
    In n' nodes /\ node_Name n' = "b" /\ node_Status n' = "online" /\
    isInMaintenance (ab_config b) "b" = false /\ "b" <> "a".
Proof.
  intros b cl.
  assert (Hin : In (100%Z, "a", "b") (out_calls (Run b cl 1000000 false)))
    by (vm_compute; left; reflexivity).
  split; [exact Hin|].
  exact (advanced_plan_shape b cl 1000000 false 100 "a" "b" Hin).
Defined.

Lemma advanced_run_cooldown_witness :
  let b := set_lastRun (NewAdvancedBalancer defaultConfig) (Some 999000%Z) in
  let cl := client_of [nodeA []; nodeB] in
  ab_lastRun b = Some 999000%Z /\
  (1000000 - 999000 < CooldownPeriod (GetAggressivenessConfig (ab_config b)))%Z /\
  out_calls (Run b cl 1000000 true) <> [] /\
  (let o := Run b cl 1000000 false in
   out_results o = [] /\ out_calls o = [] /\ ab_lastRun (out_state o) = Some 999000%Z /\
   ab_migrationHistory (out_state o) = ab_migrationHistory b).
Proof.
  intros b cl.
  assert (Hl : ab_lastRun b = Some 999000%Z) by reflexivity.
  assert (Hcd : (1000000 - 999000 < CooldownPeriod (GetAggressivenessConfig (ab_config b)))%Z)
    by (vm_compute; reflexivity).
  split; [exact Hl|split; [exact Hcd|split; [vm_compute; discriminate|]]].
  exact (advanced_run_cooldown b cl 1000000 999000 Hl Hcd).
Defined.

Lemma advanced_no_overloaded_no_migration_witness :
  let b := NewAdvancedBalancer defaultConfig in
  let nc := mkNode "c" "online" (161 # 2) 40 40 [vm100 []] in
  let cl := client_of [nodeB; nc] in
  exceeds (ab_config b) nc = true /\ GetNodes cl = Some [nodeB; nc] /\
  (forall n, In n [nodeB; nc] -> isOverloaded (ab_config b) n = false) /\
  out_results (Run b cl 1000000 false) = [] /\ out_calls (Run b cl 1000000 false) = [].
Proof.
  intros b nc cl.
  assert (Hg : GetNodes cl = Some [nodeB; nc]) by reflexivity.
  assert (Hno : forall n, In n [nodeB; nc] -> isOverloaded (ab_config b) n = false)
    by (intros n [<-|[<-|[]]]; vm_compute; reflexivity).
  split; [vm_compute; reflexivity|split; [exact Hg|split; [exact Hno|]]].
  exact (advanced_no_overloaded_no_migration b cl 1000000 false [nodeB; nc] Hg Hno).
Defined.

Lemma advanced_findBestTargetNode_min_witness :
  let b := NewAdvancedBalancer defaultConfig in
  let nodes := [nodeA []; nodeB] in
  intWeightTotal (ab_config b) <> 0%Z /\ In nodeB nodes /\ node_Name nodeB <> "a" /\
  ValidatePlacement (ab_engine b) (vm100 []) (node_Name nodeB) = None /\
  exists n, In n nodes /\
    findBestTargetNode b (vm100 []) (calculateAdvancedNodeScores b 1000000 nodes) "a"
      = node_Name n /\
    node_Name n <> "a" /\ ValidatePlacement (ab_engine b) (vm100 []) (node_Name n) = None /\
    forall n'', In n'' nodes -> node_Name n'' <> "a" ->
      ValidatePlacement (ab_engine b) (vm100 []) (node_Name n'') = None ->
      fle (ns_Score (advancedScore b 1000000 n)) (ns_Score (advancedScore b 1000000 n'')) = true.
Proof.
  intros b nodes.
  assert (Hw : intWeightTotal (ab_config b) <> 0%Z) by (vm_compute; discriminate).
  assert (Hn : In nodeB nodes) by (right; left; reflexivity).
  assert (Hs : node_Name nodeB <> "a") by discriminate.
  assert (Hv : ValidatePlacement (ab_engine b) (vm100 []) (node_Name nodeB) = None)
    by (vm_compute; reflexivity).
  split; [exact Hw|split; [exact Hn|split; [exact Hs|split; [exact Hv|]]]].
  exact (advanced_findBestTargetNode_min b 1000000 nodes (vm100 []) "a" nodeB Hw Hn Hs Hv).
Defined.

Lemma threshold_findBestTargetNode_min_witness :
  let b := Threshold.NewBalancer defaultConfig in
  let nodes := [nodeA []; nodeB] in
  ~ (Threshold.weightTotal (Threshold.tb_config b) == 0) /\
  In nodeB nodes /\ node_Name nodeB <> vm_Node (vm100 []) /\
  ValidatePlacement (Threshold.tb_engine b) (vm100 []) (node_Name nodeB) = None /\
  exists n, In n nodes /\
    Threshold.findBestTargetNode b (vm100 []) (Threshold.calculateNodeScores b nodes)
      = node_Name n /\
    node_Name n <> vm_Node (vm100 []) /\
    ValidatePlacement (Threshold.tb_engine b) (vm100 []) (node_Name n) = None /\
    forall n'', In n'' nodes -> node_Name n'' <> vm_Node (vm100 []) ->
      ValidatePlacement (Threshold.tb_engine b) (vm100 []) (node_Name n'') = None ->
      fle (ns_Score (Threshold.calculateNodeScore b n))
          (ns_Score (Threshold.calculateNodeScore b n'')) = true.
Proof.
  intros b nodes.
  assert (Hw : ~ (Threshold.weightTotal (Threshold.tb_config b) == 0))
    by (vm_compute; discriminate).
  assert (Hn : In nodeB nodes) by (right; left; reflexivity).
  assert (Hs : node_Name nodeB <> vm_Node (vm100 [])) by discriminate.
  assert (Hv : ValidatePlacement (Threshold.tb_engine b) (vm100 []) (node_Name nodeB) = None)
    by (vm_compute; reflexivity).
  split; [exact Hw|split; [exact Hn|split; [exact Hs|split; [exact Hv|]]]].
  exact (threshold_findBestTargetNode_min b nodes (vm100 []) nodeB Hw Hn Hs Hv).
Defined.

Lemma threshold_calls_respect_rules_witness :
  let b := Threshold.NewBalancer defaultConfig in
  let cl := client_of [nodeA []; nodeB] in
  In (100%Z, "a", "b") (out_calls (Threshold.Run b cl 1000000 false)) /\
  exists nodes n vm n', GetNodes cl = Some nodes /\
    In n nodes /\ node_Name n = "a" /\ isInMaintenance (Threshold.tb_config b) "a" = false /\
    exceeds (Threshold.tb_config b) n = true /\
    In vm (node_VMs n) /\ vm_ID vm = 100%Z /\
    In n' nodes /\ node_Name n' = "b" /\ isInMaintenance (Threshold.tb_config b) "b" = false /\
    "b" <> vm_Node vm /\
    ValidatePlacement (ProcessVMs (Threshold.tb_engine b) (flat_map node_VMs nodes)) vm "b"
      = None.
Proof.
  intros b cl.
  assert (Hin : In (100%Z, "a", "b") (out_calls (Threshold.Run b cl 1000000 false)))
    by (vm_compute; left; reflexivity).
  split; [exact Hin|].
  exact (threshold_calls_respect_rules b cl 1000000 false 100 "a" "b" Hin).
Defined.

(** For weights that are non-negative with a positive sum and usages
    between 0 and 100, the threshold balancer's node score is a finite
    double in [0, 1], and its three components are the usages divided by 100. *)
Theorem threshold_calculateNodeScore_bounds (b : Threshold.Balancer) (n : Node)
  (Hwc : 0 <= cfg_WeightCPU (Threshold.tb_config b))
  (Hwm : 0 <= cfg_WeightMemory (Threshold.tb_config b))
  (Hws : 0 <= cfg_WeightStorage (Threshold.tb_config b))
  (Htot : 0 < cfg_WeightCPU (Threshold.tb_config b) + cfg_WeightMemory (Threshold.tb_config b)
              + cfg_WeightStorage (Threshold.tb_config b))
  (Hc : 0 <= node_CPU n <= 100) (Hm : 0 <= node_Memory n <= 100)
  (Hs : 0 <= node_Storage n <= 100) :
  let s := Threshold.calculateNodeScore b n in
  ns_Node s = node_Name n /\ (exists q, ns_Score s = FNum q /\ 0 <= q <= 1) /\
  ns_CPU s == node_CPU n / 100 /\ ns_Memory s == node_Memory n / 100 /\
  ns_Storage s == node_Storage n / 100.
Proof.
  intros s. subst s.
  assert (Hw : ~ (Threshold.weightTotal (Threshold.tb_config b) == 0)).
  { unfold Threshold.weightTotal. intros E. rewrite E in Htot. discriminate Htot. }
  rewrite (threshold_score_finite b n Hw).
  unfold Threshold.calculateNodeScore, Threshold.weightTotal. cbn [ns_Node ns_CPU
    ns_Memory ns_Storage].
  set (wc := cfg_WeightCPU _) in *. set (wm := cfg_WeightMemory _) in *.
  set (ws := cfg_WeightStorage _) in *.
  unfold Qdiv. change (/ 100) with (1 # 100).
  split; [reflexivity|split; [|repeat split; reflexivity]].
  eexists. split; [reflexivity|]. split.
  - apply Qle_shift_div_l; [exact Htot|]. nra.
  - apply Qle_shift_div_r; [exact Htot|]. nra.
Qed.

Lemma threshold_calculateNodeScore_bounds_witness :
  let b := Threshold.NewBalancer defaultConfig in
  let c := Threshold.tb_config b in
  (0 <= cfg_WeightCPU c /\ 0 <= cfg_WeightMemory c /\ 0 <= cfg_WeightStorage c /\
   0 < cfg_WeightCPU c + cfg_WeightMemory c + cfg_WeightStorage c) /\
  (let s := Threshold.calculateNodeScore b nodeB in
   ns_Node s = node_Name nodeB /\ (exists q, ns_Score s = FNum q /\ 0 <= q <= 1) /\
   ns_CPU s == node_CPU nodeB / 100 /\ ns_Memory s == node_Memory nodeB / 100 /\
   ns_Storage s == node_Storage nodeB / 100).
Proof.
  intros b c.
  assert (Hwc : 0 <= cfg_WeightCPU c) by (apply Qle_bool_iff; reflexivity).
  assert (Hwm : 0 <= cfg_WeightMemory c) by (apply Qle_bool_iff; reflexivity).
  assert (Hws : 0 <= cfg_WeightStorage c) by (apply Qle_bool_iff; reflexivity).
  assert (Htot : 0 < cfg_WeightCPU c + cfg_WeightMemory c + cfg_WeightStorage c)
    by (vm_compute; reflexivity).
  assert (Hc : 0 <= node_CPU nodeB <= 100) by (split; apply Qle_bool_iff; reflexivity).
  assert (Hm : 0 <= node_Memory nodeB <= 100) by (split; apply Qle_bool_iff; reflexivity).
  assert (Hs : 0 <= node_Storage nodeB <= 100) by (split; apply Qle_bool_iff; reflexivity).
  split; [repeat split; assumption|].
  exact (threshold_calculateNodeScore_bounds b nodeB Hwc Hwm Hws Htot Hc Hm Hs).
Defined.

(** ** Load profiles *)

Lemma existsb_eqb_In (t : string) (l : list string) :
  existsb (String.eqb t) l = true -> In t l.
Proof.
  intros H. apply existsb_exists in H. destruct H as [x [Hx Heq]].
  apply String.eqb_eq in Heq. subst x. exact Hx.
Qed.

Lemma criticality_from_tags_some (tags : list string) (c : Criticality) :
  criticality_from_tags tags = Some c -> c <> CriticalityNormal.
Proof.
  induction tags as [|t ts IH]; cbn [criticality_from_tags]; [discriminate|].
  destruct (existsb (String.eqb t) ["critical"; "essential"]); [intros Hs; injection Hs; intros <-; discriminate|].
  destruct (existsb (String.eqb t) ["important"; "production"]); [intros Hs; injection Hs; intros <-; discriminate|].
  exact IH.
Qed.

Lemma tags_no_keyword (tags : list string) :
  (forall t, In t tags ->
   ~ In t ["realtime"; "critical"; "high-priority"; "interactive"; "user-facing";
           "background"; "batch"; "low-priority"; "essential"; "important"; "production"]) ->
  priority_from_tags tags = None /\ criticality_from_tags tags = None.
Proof.
  induction tags as [|t ts IH]; intros Hno; [split; reflexivity|].
  assert (Ht := Hno t (or_introl eq_refl)).
  destruct (IH (fun t' Ht' => Hno t' (or_intror Ht'))) as [IHp IHc].
  cbn [priority_from_tags criticality_from_tags].
  destruct (existsb (String.eqb t) ["realtime"; "critical"; "high-priority"]) eqn:E1;
    [apply existsb_eqb_In in E1; simpl in *; tauto|].
  destruct (existsb (String.eqb t) ["interactive"; "user-facing"]) eqn:E2;
    [apply existsb_eqb_In in E2; simpl in *; tauto|].
  destruct (existsb (String.eqb t) ["background"; "batch"; "low-priority"]) eqn:E3;
    [apply existsb_eqb_In in E3; simpl in *; tauto|].
  destruct (existsb (String.eqb t) ["critical"; "essential"]) eqn:E4;
    [apply existsb_eqb_In in E4; simpl in *; tauto|].
  destruct (existsb (String.eqb t) ["important"; "production"]) eqn:E5;
    [apply existsb_eqb_In in E5; simpl in *; tauto|].
  split; assumption.
Qed.

(** A VM none of whose tags is a priority or criticality keyword gets the
    profile priority realtime and criticality critical: the CPU pattern is
    the placeholder "sustained" at 90, above the threshold of 70. *)
Theorem analyzeLoadProfile_untagged (vm : VM)
  (Hno : forall t, In t (vm_Tags vm) ->
         ~ In t ["realtime"; "critical"; "high-priority"; "interactive"; "user-facing";
                 "background"; "batch"; "low-priority"; "essential"; "important";
                 "production"]) :
  lp_Priority (analyzeLoadProfile vm) = PriorityRealtime /\
  lp_Criticality (analyzeLoadProfile vm) = CriticalityCritical.
Proof.
  destruct (tags_no_keyword (vm_Tags vm) Hno) as [Hp Hc].
  unfold analyzeLoadProfile, determineCriticality, determinePriority.
  cbn [lp_Priority lp_Criticality]. rewrite Hp, Hc. split; reflexivity.
Qed.

(** A load profile has criticality normal only when its priority is
    background: criticality tags give only critical or important. *)
Theorem analyzeLoadProfile_normal_background (vm : VM)
  (H : lp_Criticality (analyzeLoadProfile vm) = CriticalityNormal) :
  lp_Priority (analyzeLoadProfile vm) = PriorityBackground.
Proof.
  revert H. unfold analyzeLoadProfile, determineCriticality.
  cbn [lp_Priority lp_Criticality].
  destruct (criticality_from_tags (vm_Tags vm)) as [c|] eqn:E.
  - intros ->. exfalso. exact (criticality_from_tags_some _ _ E eq_refl).
  - destruct (determinePriority vm "sustained" 90); congruence.
Qed.

(** [updateLoadProfiles] keys the profiles by VM ID: the profile of an ID
    is that of the last running VM with this ID on the given nodes, and an
    ID no running VM carries keeps its previous profile (or none). *)
Theorem updateLoadProfiles_lookup (b : AdvancedBalancer) (nodes : list Node) (id : Z) :
  zlookup id (ab_loadProfiles (updateLoadProfiles b nodes)) =
  match rev (filter (fun v => String.eqb (vm_Status v) "running" && Z.eqb (vm_ID v) id)
                    (flat_map node_VMs nodes)) with
  | [] => zlookup id (ab_loadProfiles b)
  | v :: _ => Some (analyzeLoadProfile v)
  end.
Proof.
  unfold updateLoadProfiles, set_loadProfiles. cbn [ab_loadProfiles].
  generalize (ab_loadProfiles b). induction (flat_map node_VMs nodes) as [|x vms IH];
    intros m; [reflexivity|].
  cbn [fold_left filter]. rewrite IH.
  destruct (String.eqb (vm_Status x) "running") eqn:Hr; cbn [andb].
  - destruct (Z.eqb_spec (vm_ID x) id) as [Hid|Hid].
    + cbn [rev]. destruct (rev _) as [|v r]; [|reflexivity].
      simpl. rewrite zlookup_zupdate, Hid, Z.eqb_refl. reflexivity.
    + destruct (rev _) as [|v r]; [|reflexivity].
      rewrite zlookup_zupdate. apply Z.eqb_neq in Hid. rewrite Z.eqb_sym, Hid. reflexivity.
  - reflexivity.
Qed.

Lemma analyzeLoadProfile_untagged_witness :
  (forall t, In t (vm_Tags (vm100 ["plb_pin_b"])) ->
   ~ In t ["realtime"; "critical"; "high-priority"; "interactive"; "user-facing";
           "background"; "batch"; "low-priority"; "essential"; "important"; "production"]) /\
  (lp_Priority (analyzeLoadProfile (vm100 ["plb_pin_b"])) = PriorityRealtime /\
   lp_Criticality (analyzeLoadProfile (vm100 ["plb_pin_b"])) = CriticalityCritical).
Proof.
  assert (Hno : forall t, In t (vm_Tags (vm100 ["plb_pin_b"])) ->
          ~ In t ["realtime"; "critical"; "high-priority"; "interactive"; "user-facing";
                  "background"; "batch"; "low-priority"; "essential"; "important";
                  "production"]).
  { intros t [<-|[]]. simpl. intros H. repeat destruct H as [H|H]; try discriminate; exact H. }
  split; [exact Hno|].
  exact (analyzeLoadProfile_untagged (vm100 ["plb_pin_b"]) Hno).
Defined.

Lemma analyzeLoadProfile_normal_background_witness :
  lp_Criticality (analyzeLoadProfile (vm100 ["batch"])) = CriticalityNormal /\
  lp_Priority (analyzeLoadProfile (vm100 ["batch"])) = PriorityBackground.
Proof.
  assert (H : lp_Criticality (analyzeLoadProfile (vm100 ["batch"])) = CriticalityNormal)
    by (vm_compute; reflexivity).
  split; [exact H|].
  exact (analyzeLoadProfile_normal_background (vm100 ["batch"]) H).
Defined.
